(** * gmana-cli: password generation, strength scoring and history

    A shallow embedding of the core of the gmana command line tool:

    - [lib/password-generator.ts]: the options schema, the charset builder,
      the secure sampler and the strength scorer;
    - [lib/history.ts]: the bounded, newest-first history log;
    - [commands/history.ts]: the masking of listed passwords.

    JavaScript strings are sequences of UTF-16 code units, and every string
    operation the program uses ([length], indexing, [split],
    [substring], [repeat], the regular expressions without the [u] flag)
    works on code units.  A string is therefore a list of code units. *)

From Stdlib Require Import ZArith NArith Ascii String DecimalString.
From stdpp Require Import base decidable numbers list sets.

Open Scope Z_scope.

(** ** Strings, values, exceptions *)

Module JS.

(** A UTF-16 code unit, [0 .. 65535], and a string of them. *)
Abbreviation unit16 := N.
Abbreviation jsstring := (list unit16).

(** The code units of an ASCII literal of the source. *)
Definition lit (s : string) : jsstring :=
  List.map N_of_ascii (list_ascii_of_string s).

(** [s.length], a JavaScript number. *)
Definition strlen (s : jsstring) : Z := Z.of_nat (length s).

(** [hay.includes(c)] for a one-unit needle [c]. *)
Definition includes (hay : jsstring) (c : unit16) : bool :=
  bool_decide (c ∈ hay).

(** [s.substring(from, to)]: both ends are clamped to [0 .. s.length] and
    swapped when they come in the wrong order. *)
Definition substring (s : jsstring) (from to : Z) : jsstring :=
  let clamp i := Z.min (Z.max 0 i) (strlen s) in
  let lo := Z.min (clamp from) (clamp to) in
  let hi := Z.max (clamp from) (clamp to) in
  take (Z.to_nat (hi - lo)) (drop (Z.to_nat lo) s).

(** [s.substring(from)]: the end defaults to [s.length]. *)
Definition substring_from (s : jsstring) (from : Z) : jsstring :=
  substring s from (strlen s).

(** [s.repeat(count)] for [count >= 0]; a negative count is a RangeError,
    which no caller in this program can reach. *)
Definition repeat (s : jsstring) (count : Z) : jsstring :=
  mjoin (replicate (Z.to_nat count) s).

(** [a.slice(start, end)] on an array: a negative index counts from the
    end, and both are clamped to [0 .. a.length]. *)
Definition slice {A} (a : list A) (start end_ : Z) : list A :=
  let len := Z.of_nat (length a) in
  let rel k := if bool_decide (k < 0) then Z.max (len + k) 0 else Z.min k len in
  take (Z.to_nat (rel end_ - rel start)) (drop (Z.to_nat (rel start)) a).

(** A JavaScript number, as far as the schema can tell numbers apart: an
    integer, or anything else (a fraction, NaN, an infinity). *)
Inductive number : Type :=
| Int (z : Z)
| NonInt.

(** A value as it arrives at run time, before any validation.  A symbol
    is what a cancelled prompt resolves to. *)
Inductive value : Type :=
| VUndefined
| VNull
| VBoolean (b : bool)
| VNumber (n : number)
| VString (s : jsstring)
| VSymbol
| VObject.

(** What the program throws. *)
Inductive exn : Type :=
| ZodError
| Error (message : string)
| RangeError
| TypeError.

Inductive outcome (A : Type) : Type :=
| Returns (a : A)
| Throws (e : exn).
Arguments Returns {A} a.
Arguments Throws {A} e.

(** Sequencing of code that may throw: [x ← m; k] runs [k] on the value
    [m] returns and passes on what [m] throws. *)
#[export] Instance outcome_ret : MRet outcome := λ A a, Returns a.
#[export] Instance outcome_bind : MBind outcome := λ A B k m,
  match m with
  | Returns a => k a
  | Throws e => Throws e
  end.

End JS.

Import JS.

(** ** The options schema *)

(** The record [PasswordOptionsSchema.parse] returns: every default has
    been applied and the length is an integer within bounds. *)
Module PasswordOptions.
Record t : Type := mk {
  length : Z;
  includeUppercase : bool;
  includeLowercase : bool;
  includeNumbers : bool;
  includeSymbols : bool;
  includeExtraSymbols : bool;
  excludeSimilar : bool;
  excludeAmbiguous : bool;
  customChars : option jsstring;
  pattern : option jsstring
}.
End PasswordOptions.

(** The object handed to [generate], as the schema sees it: one value per
    key, [VUndefined] for a key that is absent.  Other keys are stripped
    by the schema and play no role. *)
Module Input.
Record t : Type := mk {
  length : value;
  includeUppercase : value;
  includeLowercase : value;
  includeNumbers : value;
  includeSymbols : value;
  includeExtraSymbols : value;
  excludeSimilar : value;
  excludeAmbiguous : value;
  customChars : value;
  pattern : value
}.
End Input.

Module Zod.

(** [z.number().int().min(lo).max(hi).default(d)] *)
Definition number_int_min_max_default (lo hi d : Z) (v : value) : outcome Z :=
  match v with
  | VUndefined => Returns d
  | VNumber (Int z) =>
      if bool_decide (lo ≤ z ∧ z ≤ hi) then Returns z else Throws ZodError
  | _ => Throws ZodError
  end.

(** [z.boolean().default(d)] *)
Definition boolean_default (d : bool) (v : value) : outcome bool :=
  match v with
  | VUndefined => Returns d
  | VBoolean b => Returns b
  | _ => Throws ZodError
  end.

(** [z.string().optional()] *)
Definition string_optional (v : value) : outcome (option jsstring) :=
  match v with
  | VUndefined => Returns None
  | VString s => Returns (Some s)
  | _ => Throws ZodError
  end.

End Zod.

(** [PasswordOptionsSchema.parse]: zod reports every offending key in one
    [ZodError]; which keys offend is not modelled, only that one does. *)
Definition PasswordOptionsSchema_parse (input : Input.t) : outcome PasswordOptions.t :=
  length ← Zod.number_int_min_max_default 4 128 12 (Input.length input);
  includeUppercase ← Zod.boolean_default true (Input.includeUppercase input);
  includeLowercase ← Zod.boolean_default true (Input.includeLowercase input);
  includeNumbers ← Zod.boolean_default true (Input.includeNumbers input);
  includeSymbols ← Zod.boolean_default true (Input.includeSymbols input);
  includeExtraSymbols ← Zod.boolean_default false (Input.includeExtraSymbols input);
  excludeSimilar ← Zod.boolean_default false (Input.excludeSimilar input);
  excludeAmbiguous ← Zod.boolean_default false (Input.excludeAmbiguous input);
  customChars ← Zod.string_optional (Input.customChars input);
  pattern ← Zod.string_optional (Input.pattern input);
  Returns (PasswordOptions.mk length includeUppercase includeLowercase
             includeNumbers includeSymbols includeExtraSymbols
             excludeSimilar excludeAmbiguous customChars pattern).

(** A well-typed [PasswordOptions] argument, seen as run-time input. *)
Definition of_options (o : PasswordOptions.t) : Input.t :=
  let opt s := match s with Some s => VString s | None => VUndefined end in
  Input.mk (VNumber (Int (PasswordOptions.length o)))
    (VBoolean (PasswordOptions.includeUppercase o))
    (VBoolean (PasswordOptions.includeLowercase o))
    (VBoolean (PasswordOptions.includeNumbers o))
    (VBoolean (PasswordOptions.includeSymbols o))
    (VBoolean (PasswordOptions.includeExtraSymbols o))
    (VBoolean (PasswordOptions.excludeSimilar o))
    (VBoolean (PasswordOptions.excludeAmbiguous o))
    (opt (PasswordOptions.customChars o))
    (opt (PasswordOptions.pattern o)).

(** ** The entropy source

    [crypto.randomInt] is Node's: for [min < max] it returns an integer
    of [min .. max - 1] drawn from the system's entropy.  The source of
    entropy is a collaborator of the program; it is modelled by its state
    and by the draw function, which is only known to respect the range. *)
Class SecureRandom : Type := {
  entropy : Type;
  draw : Z → Z → entropy → Z * entropy;
  draw_range : ∀ min max g, min < max → min ≤ (draw min max g).1 < max
}.

(** A source for tests: it replays a tape of raw numbers, reduced into the
    requested range, and yields [min] once the tape is used up. *)
Definition tape_source : SecureRandom := {|
  entropy := list Z;
  draw min max g := (min + hd 0 g `mod` (max - min), tl g);
  draw_range := ltac:(intros min max g Hlt; simpl;
                      pose proof (Z.mod_pos_bound (hd 0 g) (max - min)); lia)
|}.

Section Generator.
Context `{SecureRandom}.

(** Code that draws from the entropy source and may throw. *)
Definition M (A : Type) : Type := entropy → outcome A * entropy.

#[export] Instance M_ret : MRet M := λ A a g, (Returns a, g).
#[export] Instance M_bind : MBind M := λ A B k m g,
  match m g with
  | (Returns a, g') => k a g'
  | (Throws e, g') => (Throws e, g')
  end.

Definition throw {A} (e : exn) : M A := λ g, (Throws e, g).

Definition lift {A} (m : outcome A) : M A := λ g, (m, g).

(** [crypto.randomInt(min, max)]: Node rejects an empty range with a
    RangeError before it draws.  (It also rejects a range wider than
    [2^48]; a string is far shorter than that.) *)
Definition crypto_randomInt (min max : Z) : M Z :=
  if bool_decide (max ≤ min) then throw RangeError
  else λ g, let (n, g') := draw min max g in (Returns n, g').

End Generator.

(** ** Regular expressions

    The scorer only asks whether a pattern occurs somewhere in the
    password.  None of its patterns is anchored, carries the [u] flag or
    can match the empty string. *)

Module RegExp.

(** [re.test(s)]: the pattern is tried at each start index, leftmost
    first, until it matches there.  [matches_at rest] tells whether the
    pattern matches a prefix of [rest]. *)
Fixpoint test (matches_at : jsstring → bool) (s : jsstring) : bool :=
  matches_at s ||
  match s with
  | [] => false
  | _ :: rest => test matches_at rest
  end.

(** A character class: one unit, which has to be a member. *)
Definition class (member : unit16 → bool) (s : jsstring) : bool :=
  match s with
  | c :: _ => member c
  | [] => false
  end.

Definition range (lo hi c : unit16) : bool := ((lo <=? c) && (c <=? hi))%N.

(** [[a-z]], [[A-Z]] and [\d] (which, without the [u] flag, is [[0-9]]). *)
Definition lower : unit16 → bool := range 97%N 122%N.
Definition upper : unit16 → bool := range 65%N 90%N.
Definition digit : unit16 → bool := range 48%N 57%N.

(** The class of the fourth test: every character listed stands for
    itself (the hyphen and the brackets are escaped, the caret is not in
    first position). *)
Definition special : unit16 → bool :=
  includes (lit "!@#$%^&*()_+-=[]{}|;:,.<>?").

(** The dot matches every unit but the four line terminators: line feed,
    carriage return, U+2028 and U+2029. *)
Definition line_terminator (c : unit16) : bool :=
  includes [10; 13; 8232; 8233]%N c.

(** [(.)\1{2,}]: the group captures one unit the dot accepts; the
    back-reference then has to match that same unit at least twice. *)
Definition repeated (s : jsstring) : bool :=
  match s with
  | c :: d :: e :: _ => (negb (line_terminator c) && (d =? c) && (e =? c))%N
  | _ => false
  end.

(** Canonicalize under the [i] flag, for units below 128: a lower-case
    letter stands for its upper-case one.  A unit from 128 on is never
    sent below 128, so it cannot match an ASCII pattern character; for
    matching against ASCII patterns, which is all the scorer does, it may
    stay as it is. *)
Definition canonicalize (c : unit16) : unit16 :=
  if lower c then (c - 32)%N else c.

(** A literal under the [i] flag. *)
Fixpoint literal_i (pat s : jsstring) : bool :=
  match pat, s with
  | [], _ => true
  | p :: pat, c :: s => (canonicalize c =? canonicalize p)%N && literal_i pat s
  | _ :: _, [] => false
  end.

(** Alternation [p1|p2|...]. *)
Definition alt (ps : list (jsstring → bool)) (s : jsstring) : bool :=
  existsb (λ p, p s) ps.

End RegExp.

(** ** Charset builder, sampler, generator *)

Module PasswordGenerator.

Definition LOWERCASE : jsstring := lit "abcdefghijklmnopqrstuvwxyz".
Definition UPPERCASE : jsstring := lit "ABCDEFGHIJKLMNOPQRSTUVWXYZ".
Definition NUMBERS : jsstring := lit "0123456789".
Definition SYMBOLS : jsstring := lit "!@#$%^&*".
Definition EXTRA_SYMBOLS : jsstring := lit "()_+-=[]{}|;:,.<>?".
Definition SIMILAR_CHARS : jsstring := lit "il1Lo0O".
(** The source literal holds, after the brackets and the slash, one
    backslash, one apostrophe and one double quote (code unit 34), each
    written with an escape. *)
Definition AMBIGUOUS_CHARS : jsstring :=
  lit "{}[]()/\'" ++ [34%N] ++ lit "`~,;.<>".

(** [if (flag) charset += cls] *)
Definition append_if (flag : bool) (cls charset : jsstring) : jsstring :=
  if flag then charset ++ cls else charset.

(** [charset.split(..).filter((char) => !excluded.includes(char)).join(..)]
    with the empty separator: [split] yields the code units one by one,
    [join] puts the survivors back together. *)
Definition without (excluded charset : jsstring) : jsstring :=
  filter (λ char, includes excluded char = false) charset.

Definition buildCharset (options : PasswordOptions.t) : jsstring :=
  let charset := [] in
  let charset :=
    append_if (PasswordOptions.includeLowercase options) LOWERCASE charset in
  let charset :=
    append_if (PasswordOptions.includeUppercase options) UPPERCASE charset in
  let charset :=
    append_if (PasswordOptions.includeNumbers options) NUMBERS charset in
  let charset :=
    append_if (PasswordOptions.includeSymbols options) SYMBOLS charset in
  let charset :=
    append_if (PasswordOptions.includeExtraSymbols options) EXTRA_SYMBOLS charset in
  let charset :=
    if PasswordOptions.excludeSimilar options
    then without SIMILAR_CHARS charset else charset in
  let charset :=
    if PasswordOptions.excludeAmbiguous options
    then without AMBIGUOUS_CHARS charset else charset in
  charset.

(** [password.join(..)] with the empty separator, on an array whose slots
    hold one-unit strings: a hole or an [undefined] slot contributes
    nothing. *)
Definition join (password : list (option unit16)) : jsstring :=
  omap id password.

Section Sampler.
Context `{SecureRandom}.

(** The [for] loop of [generateSecurePassword], [remaining] iterations from
    index [i] on.  [charset[randomIndex]] is [undefined] out of range. *)
Fixpoint fill (charset : jsstring) (remaining : nat) (i : nat)
    (password : list (option unit16)) : M (list (option unit16)) :=
  match remaining with
  | O => mret password
  | S remaining =>
      randomIndex ← crypto_randomInt 0 (strlen charset);
      fill charset remaining (S i)
        (<[i := charset !! Z.to_nat randomIndex]> password)
  end.

(** [new Array(length)] is a RangeError for a length that is negative or
    above [2^32 - 1], and an array of [length] holes otherwise.  What an
    engine can hold in memory is not modelled; [generate] passes lengths
    of 4 to 128. *)
Definition generateSecurePassword (charset : jsstring) (length : Z) : M jsstring :=
  if bool_decide (length < 0 ∨ 4294967295 < length) then throw RangeError
  else
    let n := Z.to_nat length in
    password ← fill charset n 0 (replicate n None);
    mret (join password).

Definition generateFromCustomChars (customChars : jsstring) (length : Z) : M jsstring :=
  generateSecurePassword customChars length.

(** [if (validatedOptions.customChars)]: an absent and an empty string are
    both falsy. *)
Definition truthy (s : option jsstring) : option jsstring :=
  match s with
  | Some (c :: cs) => Some (c :: cs)
  | _ => None
  end.

Definition generate (options : Input.t) : M jsstring :=
  validatedOptions ← lift (PasswordOptionsSchema_parse options);
  match truthy (PasswordOptions.customChars validatedOptions) with
  | Some customChars =>
      generateFromCustomChars customChars
        (PasswordOptions.length validatedOptions)
  | None =>
      let charset := buildCharset validatedOptions in
      if bool_decide (strlen charset = 0)
      then throw (Error "No character types selected for password generation")
      else generateSecurePassword charset
             (PasswordOptions.length validatedOptions)
  end.

End Sampler.

Inductive Level : Type :=
| VeryWeak | Weak | Fair | Good | Strong | VeryStrong.

(** The string each level stands for. *)
Definition Level_label (l : Level) : string :=
  match l with
  | VeryWeak => "Very Weak"
  | Weak => "Weak"
  | Fair => "Fair"
  | Good => "Good"
  | Strong => "Strong"
  | VeryStrong => "Very Strong"
  end.

Record StrengthResult : Type := mkStrength {
  score : Z;
  level : Level;
  feedback : list string
}.

(** [feedback.push(hint)] *)
Definition push (feedback : list string) (hint : string) : list string :=
  feedback ++ [hint].

Definition calculateStrength (password : jsstring) : StrengthResult :=
  let score := 0 in
  let feedback : list string := [] in
  (* Length scoring *)
  let '(score, feedback) :=
    if bool_decide (12 ≤ strlen password) then (score + 25, feedback)
    else if bool_decide (8 ≤ strlen password) then (score + 15, feedback)
    else if bool_decide (6 ≤ strlen password) then (score + 10, feedback)
    else (score, push feedback "Password should be at least 8 characters long") in
  (* Character variety scoring *)
  let '(score, feedback) :=
    if RegExp.test (RegExp.class RegExp.lower) password
    then (score + 15, feedback)
    else (score, push feedback "Add lowercase letters") in
  let '(score, feedback) :=
    if RegExp.test (RegExp.class RegExp.upper) password
    then (score + 15, feedback)
    else (score, push feedback "Add uppercase letters") in
  let '(score, feedback) :=
    if RegExp.test (RegExp.class RegExp.digit) password
    then (score + 15, feedback)
    else (score, push feedback "Add numbers") in
  let '(score, feedback) :=
    if RegExp.test (RegExp.class RegExp.special) password
    then (score + 20, feedback)
    else (score, push feedback "Add special characters") in
  (* Pattern penalties *)
  let '(score, feedback) :=
    if RegExp.test RegExp.repeated password
    then (score - 10, push feedback "Avoid repeating characters")
    else (score, feedback) in
  let '(score, feedback) :=
    if RegExp.test
         (RegExp.alt [RegExp.literal_i (lit "123");
                      RegExp.literal_i (lit "abc");
                      RegExp.literal_i (lit "qwe")]) password
    then (score - 15, push feedback "Avoid common sequences")
    else (score, feedback) in
  let level :=
    if bool_decide (90 ≤ score) then VeryStrong
    else if bool_decide (75 ≤ score) then Strong
    else if bool_decide (60 ≤ score) then Good
    else if bool_decide (40 ≤ score) then Fair
    else if bool_decide (20 ≤ score) then Weak
    else VeryWeak in
  {| score := Z.max 0 score; level := level; feedback := feedback |}.

End PasswordGenerator.

(** ** The history log *)

Module History.

Record EntryOptions : Type := mkEntryOptions {
  length : Z;
  includeUppercase : bool;
  includeLowercase : bool;
  includeNumbers : bool;
  includeSymbols : bool;
  includeExtraSymbols : bool
}.

Record HistoryEntry : Type := mkEntry {
  id : jsstring;
  password : jsstring;
  options : EntryOptions;
  createdAt : jsstring
}.

(** The history file on disk: absent, present with content that is not
    JSON or that [HistorySchema] rejects, or present with a list of
    entries. *)
Inductive file : Type :=
| Missing
| Unreadable
| Stored (history : list HistoryEntry).

(** [loadHistory]: the parsed entries, and the empty list when the file is
    absent or when reading or parsing it throws. *)
Definition loadHistory (disk : file) : list HistoryEntry :=
  match disk with
  | Stored history => history
  | Missing | Unreadable => []
  end.

(** [saveToHistory], given what [crypto.randomUUID()] and
    [new Date().toISOString()] return at the time of the call; the result
    is the file after [fs.writeJson].  A failing disk is not modelled. *)
Definition saveToHistory (uuid now : jsstring)
    (password : jsstring) (options : PasswordOptions.t) (disk : file) : file :=
  let history := loadHistory disk in
  let entry :=
    {| id := uuid;
       password := password;
       options :=
         {| length := PasswordOptions.length options;
            includeUppercase := PasswordOptions.includeUppercase options;
            includeLowercase := PasswordOptions.includeLowercase options;
            includeNumbers := PasswordOptions.includeNumbers options;
            includeSymbols := PasswordOptions.includeSymbols options;
            includeExtraSymbols := PasswordOptions.includeExtraSymbols options |};
       createdAt := now |} in
  (* history.unshift(entry) *)
  let history := entry :: history in
  (* Keep only the latest 100 entries *)
  let limitedHistory := slice history 0 100 in
  Stored limitedHistory.

(** [clearHistory] removes the file if it is there. *)
Definition clearHistory (disk : file) : file := Missing.

(** The bullet, U+2022: one code unit. *)
Definition bullet : jsstring := [8226%N].

(** [maskPassword] of the history command. *)
Definition maskPassword (password : jsstring) : jsstring :=
  if bool_decide (strlen password ≤ 4) then
    bullet ++ bullet ++ bullet ++ bullet
  else
    let start := substring password 0 2 in
    let end_ := substring_from password (strlen password - 2) in
    let middle := repeat bullet (strlen password - 4) in
    start ++ middle ++ end_.

End History.

(** ** Vocabulary of the specification *)

Module Spec.
Import PasswordGenerator.

(** *** The charset builder *)

(** The classes the options enable, in the fixed order lowercase,
    uppercase, numbers, symbols, extra symbols. *)
Definition enabled_classes (o : PasswordOptions.t) : list jsstring :=
  (if PasswordOptions.includeLowercase o then [LOWERCASE] else []) ++
  (if PasswordOptions.includeUppercase o then [UPPERCASE] else []) ++
  (if PasswordOptions.includeNumbers o then [NUMBERS] else []) ++
  (if PasswordOptions.includeSymbols o then [SYMBOLS] else []) ++
  (if PasswordOptions.includeExtraSymbols o then [EXTRA_SYMBOLS] else []).

(** Two option records select the same classes and the same filters. *)
Definition same_flags (o o' : PasswordOptions.t) : Prop :=
  PasswordOptions.includeLowercase o = PasswordOptions.includeLowercase o' ∧
  PasswordOptions.includeUppercase o = PasswordOptions.includeUppercase o' ∧
  PasswordOptions.includeNumbers o = PasswordOptions.includeNumbers o' ∧
  PasswordOptions.includeSymbols o = PasswordOptions.includeSymbols o' ∧
  PasswordOptions.includeExtraSymbols o = PasswordOptions.includeExtraSymbols o' ∧
  PasswordOptions.excludeSimilar o = PasswordOptions.excludeSimilar o' ∧
  PasswordOptions.excludeAmbiguous o = PasswordOptions.excludeAmbiguous o'.

(** The pool [generate] samples from once the options are validated: the
    custom string when there is a non-empty one, the built charset
    otherwise. *)
Definition resolved_pool (o : PasswordOptions.t) : jsstring :=
  match PasswordOptions.customChars o with
  | Some (c :: cs) => c :: cs
  | _ => buildCharset o
  end.

(** At least one of the five classes is enabled. *)
Definition some_class (o : PasswordOptions.t) : Prop :=
  PasswordOptions.includeLowercase o = true ∨
  PasswordOptions.includeUppercase o = true ∨
  PasswordOptions.includeNumbers o = true ∨
  PasswordOptions.includeSymbols o = true ∨
  PasswordOptions.includeExtraSymbols o = true.

(** The two classes of error of [generate]. *)
Definition ValidationError (e : exn) : Prop := e = ZodError.
Definition GenerationError (e : exn) : Prop := ∃ message, e = Error message.

(** *** The scorer *)

(** The password holds a unit of the class. *)
Definition has (class : jsstring) (s : jsstring) : Prop :=
  ∃ c, c ∈ s ∧ c ∈ class.

(** The core and the extended punctuation together. *)
Definition punctuation : jsstring := SYMBOLS ++ EXTRA_SYMBOLS.

(** Some unit occurs three times in a row. *)
Definition repeats (s : jsstring) : Prop :=
  ∃ c pre post, s = pre ++ [c; c; c] ++ post.

(** Some unit that is not a line terminator (line feed, carriage return,
    U+2028, U+2029) occurs three times in a row. *)
Definition repeats_on_a_line (s : jsstring) : Prop :=
  ∃ c pre post,
    s = pre ++ [c; c; c] ++ post ∧ c ∉ [10%N; 13%N; 8232%N; 8233%N].

(** Upper-case Latin letters folded to lower case. *)
Definition fold_case (c : unit16) : unit16 :=
  if bool_decide (65 ≤ c ∧ c ≤ 90)%N then (c + 32)%N else c.

(** The password contains, whatever the case of its letters, one of the
    three sequences. *)
Definition common_sequence (s : jsstring) : Prop :=
  ∃ pre w post,
    s = pre ++ w ++ post ∧ fold_case <$> w ∈ [lit "123"; lit "abc"; lit "qwe"].

Definition length_points (n : Z) : Z :=
  if bool_decide (12 ≤ n) then 25
  else if bool_decide (8 ≤ n) then 15
  else if bool_decide (6 ≤ n) then 10
  else 0.

Definition length_hint (n : Z) : list string :=
  if bool_decide (6 ≤ n) then []
  else ["Password should be at least 8 characters long"%string].

(** [n] points when the test succeeds. *)
Definition points (test : bool) (n : Z) : Z := if test then n else 0.

(** The hint given when the test has the outcome [unless] does not name. *)
Definition hint (test unless : bool) (text : string) : list string :=
  if bool_decide (test = unless) then [] else [text].

(** The raw sum of the scorer, from the outcomes of its six tests. *)
Definition raw_score (n : Z) (lower upper digit special repeated sequence : bool) : Z :=
  length_points n + points lower 15 + points upper 15 + points digit 15
  + points special 20 - points repeated 10 - points sequence 15.

Definition hints (n : Z) (lower upper digit special repeated sequence : bool)
    : list string :=
  length_hint n
  ++ hint lower true "Add lowercase letters"
  ++ hint upper true "Add uppercase letters"
  ++ hint digit true "Add numbers"
  ++ hint special true "Add special characters"
  ++ hint repeated false "Avoid repeating characters"
  ++ hint sequence false "Avoid common sequences".

(** The level of a score, thresholds checked from the highest. *)
Definition level_of_score (score : Z) : Level :=
  if bool_decide (90 ≤ score) then VeryStrong
  else if bool_decide (75 ≤ score) then Strong
  else if bool_decide (60 ≤ score) then Good
  else if bool_decide (40 ≤ score) then Fair
  else if bool_decide (20 ≤ score) then Weak
  else VeryWeak.

(** The result [r] scores the password [s] by the rules of the
    specification, [repetition] being the reading of its repetition
    rule: the score is the sum of the length points and of the points of
    the classes present, less the penalties incurred, and not below 0;
    the feedback has the hint of each rule that did not go well. *)
Definition scored_as (repetition : jsstring → Prop)
    (s : jsstring) (r : StrengthResult) : Prop :=
  ∃ lower upper digit special repeated sequence : bool,
    (lower = true ↔ has LOWERCASE s)
    ∧ (upper = true ↔ has UPPERCASE s)
    ∧ (digit = true ↔ has NUMBERS s)
    ∧ (special = true ↔ has punctuation s)
    ∧ (repeated = true ↔ repetition s)
    ∧ (sequence = true ↔ common_sequence s)
    ∧ score r
      = Z.max 0 (raw_score (strlen s) lower upper digit special repeated sequence)
    ∧ feedback r
      = hints (strlen s) lower upper digit special repeated sequence.

(** A line terminator occurs three times in a row. *)
Definition terminator_run (s : jsstring) : Prop :=
  ∃ c pre post,
    s = pre ++ [c; c; c] ++ post ∧ c ∈ [10%N; 13%N; 8232%N; 8233%N].

(** The same rules with the sum taken as it comes, negative or not. *)
Definition summed_as (repetition : jsstring → Prop)
    (s : jsstring) (r : StrengthResult) : Prop :=
  ∃ lower upper digit special repeated sequence : bool,
    (lower = true ↔ has LOWERCASE s)
    ∧ (upper = true ↔ has UPPERCASE s)
    ∧ (digit = true ↔ has NUMBERS s)
    ∧ (special = true ↔ has punctuation s)
    ∧ (repeated = true ↔ repetition s)
    ∧ (sequence = true ↔ common_sequence s)
    ∧ score r
      = raw_score (strlen s) lower upper digit special repeated sequence
    ∧ feedback r
      = hints (strlen s) lower upper digit special repeated sequence.

(** *** The generator *)

(** What [generate] throws on an empty charset. *)
Definition empty_charset_error : exn :=
  Error "No character types selected for password generation".

(** A flag of the input is a boolean or is absent. *)
Definition boolean_or_absent (v : value) : Prop :=
  v = VUndefined ∨ ∃ b, v = VBoolean b.

(** The five class flags and the two exclusion flags are well typed. *)
Definition flags_well_typed (o : Input.t) : Prop :=
  boolean_or_absent (Input.includeUppercase o) ∧
  boolean_or_absent (Input.includeLowercase o) ∧
  boolean_or_absent (Input.includeNumbers o) ∧
  boolean_or_absent (Input.includeSymbols o) ∧
  boolean_or_absent (Input.includeExtraSymbols o) ∧
  boolean_or_absent (Input.excludeSimilar o) ∧
  boolean_or_absent (Input.excludeAmbiguous o).

(** Two inputs that differ at most in their flags. *)
Definition same_but_flags (o o' : Input.t) : Prop :=
  Input.length o = Input.length o' ∧
  Input.customChars o = Input.customChars o' ∧
  Input.pattern o = Input.pattern o'.

End Spec.

(** ** Sample inputs *)

Module Sample.

(** The defaults of the command line: length 12, the four usual classes. *)
Definition defaults : PasswordOptions.t :=
  PasswordOptions.mk 12 true true true true false false false None None.

(** Every class switched off, nothing else unusual. *)
Definition no_class : PasswordOptions.t :=
  PasswordOptions.mk 12 false false false false false false false None None.

(** A password with every class, twelve units long, that ends in four line
    feeds. *)
Definition four_line_feeds : jsstring := lit "Aa1!Aa1!" ++ [10; 10; 10; 10]%N.

(** Three spaces: no class, too short, one unit three times in a row. *)
Definition three_spaces : jsstring := lit "   ".

(** Every class switched off and a length below the minimum. *)
Definition no_class_short : PasswordOptions.t :=
  PasswordOptions.mk 3 false false false false false false false None None.

(** Letters and digits without the similar ones, 8 units long. *)
Definition unambiguous : PasswordOptions.t :=
  PasswordOptions.mk 8 true true true false false true false None None.

(** A custom pool of two units, ten units long. *)
Definition custom_ab : PasswordOptions.t :=
  PasswordOptions.mk 10 true true true true false false false
    (Some (lit "ab")) None.

(** A custom pool made of the similar characters, with [excludeSimilar]. *)
Definition custom_similar : PasswordOptions.t :=
  PasswordOptions.mk 4 true true true true false true false
    (Some (lit "il1Lo0O")) None.

(** A tape for the test source. *)
Definition tape : list Z := [0; 1; 2; 3; 40; 41; 42; 43; 7; 8; 9; 10; 11].

End Sample.

(** ** The draws of the sampler *)

Module Sampling.
Section Draws.
Context `{SecureRandom}.

(** The indices that [count] successive calls of [crypto.randomInt(0, n)]
    give from the state [g], and the state they leave. *)
Fixpoint draw_indices (n : Z) (count : nat) (g : entropy) : list Z * entropy :=
  match count with
  | O => ([], g)
  | S count =>
      let (i, g1) := draw 0 n g in
      let (rest, g2) := draw_indices n count g1 in
      (i :: rest, g2)
  end.

End Draws.
End Sampling.

(** ** Built-in functions the commands use *)

Module Builtins.

(** What [parseInt] returns: NaN, or the Number nearest to an integer
    (the integer itself up to [2^53] in magnitude; minus zero counts as
    zero).  Every use below compares the Number with small integers, on
    which the nearest Number and the integer agree. *)
Inductive parsed : Type :=
| NaN
| Integer (z : Z).

(** The white space and line terminators [parseInt] skips at the start. *)
Definition white_space (c : unit16) : bool :=
  includes
    [9; 10; 11; 12; 13; 32; 160; 5760; 8192; 8193; 8194; 8195; 8196; 8197;
     8198; 8199; 8200; 8201; 8202; 8232; 8233; 8239; 8287; 12288; 65279]%N c.

Fixpoint trim_start (s : jsstring) : jsstring :=
  match s with
  | c :: rest => if white_space c then trim_start rest else s
  | [] => []
  end.

(** The value of a unit as a digit of the radix, if it is one. *)
Definition digit_value (radix : Z) (c : unit16) : option Z :=
  let v :=
    if RegExp.digit c then Some (Z.of_N c - 48)
    else if RegExp.lower c then Some (Z.of_N c - 97 + 10)
    else if RegExp.upper c then Some (Z.of_N c - 65 + 10)
    else None in
  match v with
  | Some d => if bool_decide (d < radix) then Some d else None
  | None => None
  end.

(** The digits before the first unit that is not a digit of the radix. *)
Fixpoint leading_digits (radix : Z) (s : jsstring) : list Z :=
  match s with
  | c :: rest =>
      match digit_value radix c with
      | Some d => d :: leading_digits radix rest
      | None => []
      end
  | [] => []
  end.

(** [parseInt(string)] without a radix: leading white space is skipped, a
    sign is read, a [0x] or [0X] prefix selects radix 16, and the digits up
    to the first unit that is none are the number; no digit at all is
    NaN. *)
Definition parseInt (string : jsstring) : parsed :=
  let trimmed := trim_start string in
  let '(sign, unsigned) :=
    match trimmed with
    | 45%N :: rest => (-1, rest)
    | 43%N :: rest => (1, rest)
    | _ => (1, trimmed)
    end in
  let '(radix, body) :=
    match unsigned with
    | 48%N :: x :: rest =>
        if bool_decide (x = 120%N ∨ x = 88%N) then (16, rest)
        else (10, unsigned)
    | _ => (10, unsigned)
    end in
  match leading_digits radix body with
  | [] => NaN
  | digits => Integer (sign * foldl (λ n d, n * radix + d) 0 digits)
  end.

Definition isNaN (n : parsed) : bool :=
  match n with NaN => true | Integer _ => false end.

(** [n || fallback] on numbers: NaN and zero are falsy. *)
Definition or_number (n : parsed) (fallback : Z) : Z :=
  match n with
  | Integer z => if bool_decide (z = 0) then fallback else z
  | NaN => fallback
  end.

(** [s || fallback] on an optional string: absent and empty are falsy. *)
Definition or_string (s : option jsstring) (fallback : jsstring) : jsstring :=
  match s with
  | Some (c :: rest) => c :: rest
  | _ => fallback
  end.

(** [s.split(sep)] for a one-unit separator: the pieces between the
    separators, at least one piece. *)
Fixpoint split (sep : unit16) (s : jsstring) : list jsstring :=
  match s with
  | [] => [[]]
  | c :: rest =>
      if bool_decide (c = sep) then [] :: split sep rest
      else
        match split sep rest with
        | piece :: pieces => (c :: piece) :: pieces
        | [] => [[c]]
        end
  end.

(** [s.toLowerCase()] on the units below 128.  A unit from 128 on is left
    as it is: its lower-case form is never a string of units below 128
    that could make up one of the ASCII words this program compares the
    result with (the only letters with an ASCII lower-case form are the
    Kelvin sign, which gives k, and the dotted capital I, which gives i
    followed by a combining dot). *)
Definition toLowerCase (s : jsstring) : jsstring :=
  (λ c, if RegExp.upper c then (c + 32)%N else c) <$> s.

End Builtins.

(** ** Prompts

    A prompt of the prompts library resolves to the answer, or to the
    cancel symbol when the user leaves it with Ctrl-C or Escape.  The
    commands never test for that symbol: they carry on with it where the
    answer was expected. *)
Module Prompt.

Inductive t (A : Type) : Type :=
| Answered (a : A)
| Cancelled.
Arguments Answered {A} a.
Arguments Cancelled {A}.

(** What a confirm prompt resolved to, as a run-time value. *)
Definition boolean_value (answer : t bool) : value :=
  match answer with
  | Answered b => VBoolean b
  | Cancelled => VSymbol
  end.

(** [if (answer)]: a symbol is truthy. *)
Definition truthy (answer : t bool) : bool :=
  match answer with
  | Answered b => b
  | Cancelled => true
  end.

(** [parseInt(answer)]: a symbol cannot be converted to a string, which
    is a TypeError. *)
Definition parseInt (answer : t jsstring) : outcome Builtins.parsed :=
  match answer with
  | Answered text => Returns (Builtins.parseInt text)
  | Cancelled => Throws TypeError
  end.

(** [answer.includes(name)] on what a multiselect resolved to: a symbol
    has no such method, and calling it is a TypeError. *)
Definition includes (answer : t (list jsstring)) (name : jsstring)
    : outcome bool :=
  match answer with
  | Answered selected => Returns (bool_decide (name ∈ selected))
  | Cancelled => Throws TypeError
  end.

End Prompt.

(** ** The configuration file *)

Module Config.

(** A configuration the schema has accepted. *)
Record t : Type := mk {
  defaultLength : Z;
  defaultIncludeUppercase : bool;
  defaultIncludeLowercase : bool;
  defaultIncludeNumbers : bool;
  defaultIncludeSymbols : bool;
  autoCopy : bool;
  saveHistory : bool;
  historyLimit : Z
}.

(** An object as the schema receives it, read from the file or put
    together by a spread: one value per key, [VUndefined] for a key that
    is absent or holds [undefined]. *)
Module Raw.
Record t : Type := mk {
  defaultLength : value;
  defaultIncludeUppercase : value;
  defaultIncludeLowercase : value;
  defaultIncludeNumbers : value;
  defaultIncludeSymbols : value;
  autoCopy : value;
  saveHistory : value;
  historyLimit : value
}.
End Raw.

(** A [Partial<Config>] argument: [None] for a key the object does not
    have, [Some v] for a key it has, with its value. *)
Module Partial.
Record t : Type := mk {
  defaultLength : option value;
  defaultIncludeUppercase : option value;
  defaultIncludeLowercase : option value;
  defaultIncludeNumbers : option value;
  defaultIncludeSymbols : option value;
  autoCopy : option value;
  saveHistory : option value;
  historyLimit : option value
}.

(** The object without any key. *)
Definition empty : t := mk None None None None None None None None.
End Partial.

(** [ConfigSchema.parse] *)
Definition ConfigSchema_parse (raw : Raw.t) : outcome t :=
  defaultLength ←
    Zod.number_int_min_max_default 4 128 12 (Raw.defaultLength raw);
  defaultIncludeUppercase ←
    Zod.boolean_default true (Raw.defaultIncludeUppercase raw);
  defaultIncludeLowercase ←
    Zod.boolean_default true (Raw.defaultIncludeLowercase raw);
  defaultIncludeNumbers ←
    Zod.boolean_default true (Raw.defaultIncludeNumbers raw);
  defaultIncludeSymbols ←
    Zod.boolean_default true (Raw.defaultIncludeSymbols raw);
  autoCopy ← Zod.boolean_default true (Raw.autoCopy raw);
  saveHistory ← Zod.boolean_default false (Raw.saveHistory raw);
  historyLimit ←
    Zod.number_int_min_max_default 0 1000 100 (Raw.historyLimit raw);
  Returns (mk defaultLength defaultIncludeUppercase defaultIncludeLowercase
             defaultIncludeNumbers defaultIncludeSymbols autoCopy saveHistory
             historyLimit).

(** The configuration file: absent, present without being the JSON of an
    object, or present with an object. *)
Inductive file : Type :=
| Missing
| Unreadable
| Stored (raw : Raw.t).

(** The object [{}]. *)
Definition empty_object : Raw.t :=
  Raw.mk VUndefined VUndefined VUndefined VUndefined
    VUndefined VUndefined VUndefined VUndefined.

(** A validated configuration as an object: what [fs.writeJson] writes
    and [fs.readJson] reads back, and what a spread copies. *)
Definition to_raw (config : t) : Raw.t :=
  Raw.mk (VNumber (Int (defaultLength config)))
    (VBoolean (defaultIncludeUppercase config))
    (VBoolean (defaultIncludeLowercase config))
    (VBoolean (defaultIncludeNumbers config))
    (VBoolean (defaultIncludeSymbols config))
    (VBoolean (autoCopy config))
    (VBoolean (saveHistory config))
    (VNumber (Int (historyLimit config))).

(** [loadConfig]: the parsed file, and the schema's defaults when the file
    is absent or when reading or parsing it throws. *)
Definition loadConfig (disk : file) : outcome t :=
  match disk with
  | Stored rawConfig =>
      match ConfigSchema_parse rawConfig with
      | Returns config => Returns config
      | Throws _ => ConfigSchema_parse empty_object
      end
  | Missing | Unreadable => ConfigSchema_parse empty_object
  end.

(** One key of [{ ...currentConfig, ...config }]: the later object wins
    where it has the key. *)
Definition spread_key (current : value) (update : option value) : value :=
  match update with
  | Some v => v
  | None => current
  end.

Definition spread (currentConfig : Raw.t) (config : Partial.t) : Raw.t :=
  Raw.mk
    (spread_key (Raw.defaultLength currentConfig) (Partial.defaultLength config))
    (spread_key (Raw.defaultIncludeUppercase currentConfig)
       (Partial.defaultIncludeUppercase config))
    (spread_key (Raw.defaultIncludeLowercase currentConfig)
       (Partial.defaultIncludeLowercase config))
    (spread_key (Raw.defaultIncludeNumbers currentConfig)
       (Partial.defaultIncludeNumbers config))
    (spread_key (Raw.defaultIncludeSymbols currentConfig)
       (Partial.defaultIncludeSymbols config))
    (spread_key (Raw.autoCopy currentConfig) (Partial.autoCopy config))
    (spread_key (Raw.saveHistory currentConfig) (Partial.saveHistory config))
    (spread_key (Raw.historyLimit currentConfig) (Partial.historyLimit config)).

(** [saveConfig]: what it returns or throws, and the file afterwards.  A
    failing disk is not modelled. *)
Definition saveConfig (config : Partial.t) (disk : file) : outcome () * file :=
  match loadConfig disk with
  | Throws e => (Throws e, disk)
  | Returns currentConfig =>
      let newConfig := spread (to_raw currentConfig) config in
      match ConfigSchema_parse newConfig with
      | Throws e => (Throws e, disk)
      | Returns validatedConfig => (Returns (), Stored (to_raw validatedConfig))
      end
  end.

End Config.

(** ** The config command *)

Module ConfigCommand.
Import Builtins.

(** What the command tells the user, message texts aside. *)
Inductive report : Type :=
| Invalid_format
| Length_out_of_range
| Limit_out_of_range
| Unknown_key (key : jsstring)
| Updated (key value : jsstring)
| Reset_done
| Cancelled.

(** The [updates] object of [setConfigValue] for a key it knows, or the
    error it reports. *)
Definition updates_for (key value : jsstring) : report + Config.Partial.t :=
  let lowered := toLowerCase key in
  if bool_decide (lowered = lit "defaultlength" ∨ lowered = lit "length") then
    let length := parseInt value in
    match length with
    | NaN => inl Length_out_of_range
    | Integer n =>
        if bool_decide (n < 4 ∨ n > 128) then inl Length_out_of_range
        else inr (Config.Partial.mk (Some (VNumber (Int n)))
                    None None None None None None None)
    end
  else if bool_decide (lowered = lit "autocopy") then
    inr (Config.Partial.mk None None None None None
           (Some (VBoolean (bool_decide (toLowerCase value = lit "true"))))
           None None)
  else if bool_decide (lowered = lit "savehistory") then
    inr (Config.Partial.mk None None None None None None
           (Some (VBoolean (bool_decide (toLowerCase value = lit "true"))))
           None)
  else if bool_decide (lowered = lit "historylimit") then
    let limit := parseInt value in
    match limit with
    | NaN => inl Limit_out_of_range
    | Integer n =>
        if bool_decide (n < 0 ∨ n > 1000) then inl Limit_out_of_range
        else inr (Config.Partial.mk None None None None None None None
                    (Some (VNumber (Int n))))
    end
  else inl (Unknown_key key).

(** [setConfigValue]: [key] and [value] are the first two pieces of the
    argument split at the equals signs; the report, or what [saveConfig]
    throws, and the file afterwards. *)
Definition setConfigValue (keyValue : jsstring) (disk : Config.file)
    : outcome report * Config.file :=
  let pieces := split 61%N keyValue in
  match pieces !! 0%nat, pieces !! 1%nat with
  | Some (k :: ey), Some value =>
      let key := k :: ey in
      match updates_for key value with
      | inl error => (Returns error, disk)
      | inr updates =>
          match Config.saveConfig updates disk with
          | (Returns _, disk') => (Returns (Updated key value), disk')
          | (Throws e, disk') => (Throws e, disk')
          end
      end
  | _, _ => (Returns Invalid_format, disk)
  end.

(** The object [resetConfig] saves. *)
Definition reset_values : Config.Partial.t :=
  Config.Partial.mk
    (Some (VNumber (Int 12))) (Some (VBoolean true)) (Some (VBoolean true))
    (Some (VBoolean true)) (Some (VBoolean true)) (Some (VBoolean true))
    (Some (VBoolean false)) (Some (VNumber (Int 100))).

(** [resetConfig], given whether the answer to its question is truthy. *)
Definition resetConfig (confirmed : bool) (disk : Config.file)
    : outcome report * Config.file :=
  if confirmed then
    match Config.saveConfig reset_values disk with
    | (Returns _, disk') => (Returns Reset_done, disk')
    | (Throws e, disk') => (Throws e, disk')
    end
  else (Returns Cancelled, disk).

End ConfigCommand.

(** ** The gen command *)

Module GenCommand.
Import Builtins PasswordGenerator.

(** The options commander hands to the action. *)
Record CommandOptions : Type := mkCommandOptions {
  length : option jsstring;
  uppercase : option bool;
  lowercase : option bool;
  numbers : option bool;
  symbols : option bool;
  extraSymbols : option bool;
  excludeSimilar : option bool;
  excludeAmbiguous : option bool;
  copy : option bool;
  save : option bool;
  showStrength : option bool
}.

Record Actions : Type := mkActions {
  do_copy : bool;
  do_save : bool;
  do_showStrength : bool
}.

(** What the five prompts of the interactive mode resolved to. *)
Record Answers : Type := mkAnswers {
  answer_length : Prompt.t jsstring;
  charTypes : Prompt.t (list jsstring);
  excludeOptions : Prompt.t (list jsstring);
  copyToClipboard : Prompt.t bool;
  saveToHistoryConfirm : Prompt.t bool
}.

(** What the run finds around it: whether the clipboard takes the write,
    and what [crypto.randomUUID()] and the clock give when an entry is
    saved. *)
Record Env : Type := mkEnv {
  clipboard_ok : bool;
  uuid : jsstring;
  now : jsstring
}.

Inductive colour : Type := green | yellow | red.

(** What the user gets to see and what reaches the clipboard, texts and
    layout aside. *)
Inductive event : Type :=
| Intro
| Outro
| Spinner_start
| Spinner_stop
| Show_password (password : jsstring)
| Show_strength (c : colour) (l : Level) (score : Z)
| Show_suggestions (feedback : list string)
| Clipboard_write (password : jsstring)
| Copied
| Copy_failed
| Saved.

(** [x !== false] on an optional boolean. *)
Definition not_false (x : option bool) : bool :=
  match x with
  | Some false => false
  | _ => true
  end.

(** [x ?? false] *)
Definition or_false (x : option bool) : bool := default false x.


(** The [strengthColor] of [generateAndDisplay]. *)
Definition strengthColor (strength : StrengthResult) : colour :=
  if bool_decide (75 ≤ score strength) then green
  else if bool_decide (50 ≤ score strength) then yellow
  else red.

(** The [passwordOptions] of [runCommandMode]. *)
Definition command_passwordOptions (options : CommandOptions)
    (config : Config.t) : PasswordOptions.t :=
  PasswordOptions.mk
    (or_number (parseInt (or_string (length options) []))
       (or_number (Integer (Config.defaultLength config)) 12))
    (not_false (uppercase options))
    (not_false (lowercase options))
    (not_false (numbers options))
    (not_false (symbols options))
    (or_false (extraSymbols options))
    (or_false (excludeSimilar options))
    (or_false (excludeAmbiguous options))
    None None.

(** The [passwordOptions] of [runInteractiveMode]: the object literal is
    evaluated key after key, and throws where a cancelled prompt is
    parsed or searched. *)
Definition interactive_passwordOptions (answers : Answers)
    : outcome PasswordOptions.t :=
  num ← Prompt.parseInt (answer_length answers);
  includeUppercase ← Prompt.includes (charTypes answers) (lit "uppercase");
  includeLowercase ← Prompt.includes (charTypes answers) (lit "lowercase");
  includeNumbers ← Prompt.includes (charTypes answers) (lit "numbers");
  includeSymbols ← Prompt.includes (charTypes answers) (lit "symbols");
  includeExtraSymbols ←
    Prompt.includes (charTypes answers) (lit "extraSymbols");
  excludeSimilar ← Prompt.includes (excludeOptions answers) (lit "similar");
  excludeAmbiguous ←
    Prompt.includes (excludeOptions answers) (lit "ambiguous");
  Returns (PasswordOptions.mk (or_number num 12)
             includeUppercase includeLowercase includeNumbers includeSymbols
             includeExtraSymbols excludeSimilar excludeAmbiguous None None).

Section Run.
Context `{SecureRandom}.

(** The outcome of a run: what it returns or throws, what it showed, the
    history file and the entropy it leaves. *)
Definition run : Type := outcome () * list event * History.file * entropy.

(** [generateAndDisplay].  The pause before the spinner stops is left
    out, and so is a failing disk. *)
Definition generateAndDisplay (env : Env) (options : PasswordOptions.t)
    (actions : Actions) (disk : History.file) (g : entropy) : run :=
  match generate (of_options options) g with
  | (Throws e, g') => (Throws e, [Spinner_start], disk, g')
  | (Returns password, g') =>
      let shown := [Spinner_start; Spinner_stop; Show_password password] in
      let shown :=
        if do_showStrength actions then
          let strength := calculateStrength password in
          shown
          ++ [Show_strength (strengthColor strength) (level strength)
                (score strength)]
          ++ (if bool_decide (0 < Datatypes.length (feedback strength))%nat
              then [Show_suggestions (feedback strength)] else [])
        else shown in
      let shown :=
        if do_copy actions then
          if clipboard_ok env
          then shown ++ [Clipboard_write password; Copied]
          else shown ++ [Copy_failed]
        else shown in
      if do_save actions then
        (Returns (), shown ++ [Saved],
         History.saveToHistory (uuid env) (now env) password options disk, g')
      else (Returns (), shown, disk, g')
  end.

(** [runCommandMode] *)
Definition runCommandMode (env : Env) (options : CommandOptions)
    (config_disk : Config.file) (disk : History.file) (g : entropy) : run :=
  match Config.loadConfig config_disk with
  | Throws e => (Throws e, [], disk, g)
  | Returns config =>
      generateAndDisplay env (command_passwordOptions options config)
        (mkActions (or_false (copy options)) (or_false (save options))
           (or_false (showStrength options)))
        disk g
  end.

(** [runInteractiveMode], given what its prompts resolved to.  The two
    confirms are only tested for truth by [generateAndDisplay]. *)
Definition runInteractiveMode (env : Env) (answers : Answers)
    (disk : History.file) (g : entropy) : run :=
  match interactive_passwordOptions answers with
  | Throws e => (Throws e, [Intro], disk, g)
  | Returns passwordOptions =>
      match
        generateAndDisplay env passwordOptions
          (mkActions (Prompt.truthy (copyToClipboard answers))
             (Prompt.truthy (saveToHistoryConfirm answers)) true)
          disk g
      with
      | (Returns _, shown, disk', g') =>
          (Returns (), [Intro] ++ shown ++ [Outro], disk', g')
      | (Throws e, shown, disk', g') =>
          (Throws e, [Intro] ++ shown, disk', g')
      end
  end.

End Run.

End GenCommand.

(** ** Vocabulary for the configuration *)

Module ConfigSpec.

(** What a boolean key holds after an update: its old value when the
    update lacks the key, the schema's default when the update has the key
    with [undefined], the boolean the update gives; no other value is
    accepted. *)
Definition boolean_after (default old : bool) (update : option value)
    (new : bool) : Prop :=
  match update with
  | None => new = old
  | Some VUndefined => new = default
  | Some (VBoolean b) => new = b
  | Some _ => False
  end.

(** The same for a number key with its bounds. *)
Definition number_after (lo hi default old : Z) (update : option value)
    (new : Z) : Prop :=
  match update with
  | None => new = old
  | Some VUndefined => new = default
  | Some (VNumber (Int n)) => lo ≤ n ≤ hi ∧ new = n
  | Some _ => False
  end.

(** [new] is [old] with the update merged in, key by key. *)
Definition merged (old : Config.t) (update : Config.Partial.t)
    (new : Config.t) : Prop :=
  number_after 4 128 12 (Config.defaultLength old)
    (Config.Partial.defaultLength update) (Config.defaultLength new)
  ∧ boolean_after true (Config.defaultIncludeUppercase old)
      (Config.Partial.defaultIncludeUppercase update)
      (Config.defaultIncludeUppercase new)
  ∧ boolean_after true (Config.defaultIncludeLowercase old)
      (Config.Partial.defaultIncludeLowercase update)
      (Config.defaultIncludeLowercase new)
  ∧ boolean_after true (Config.defaultIncludeNumbers old)
      (Config.Partial.defaultIncludeNumbers update)
      (Config.defaultIncludeNumbers new)
  ∧ boolean_after true (Config.defaultIncludeSymbols old)
      (Config.Partial.defaultIncludeSymbols update)
      (Config.defaultIncludeSymbols new)
  ∧ boolean_after true (Config.autoCopy old)
      (Config.Partial.autoCopy update) (Config.autoCopy new)
  ∧ boolean_after false (Config.saveHistory old)
      (Config.Partial.saveHistory update) (Config.saveHistory new)
  ∧ number_after 0 1000 100 (Config.historyLimit old)
      (Config.Partial.historyLimit update) (Config.historyLimit new).

(** The defaults of the schema. *)
Definition defaults : Config.t :=
  Config.mk 12 true true true true true false 100.

(** A configuration with one key changed. *)
Definition with_defaultLength (n : Z) (c : Config.t) : Config.t :=
  Config.mk n (Config.defaultIncludeUppercase c)
    (Config.defaultIncludeLowercase c) (Config.defaultIncludeNumbers c)
    (Config.defaultIncludeSymbols c) (Config.autoCopy c)
    (Config.saveHistory c) (Config.historyLimit c).

Definition with_autoCopy (b : bool) (c : Config.t) : Config.t :=
  Config.mk (Config.defaultLength c) (Config.defaultIncludeUppercase c)
    (Config.defaultIncludeLowercase c) (Config.defaultIncludeNumbers c)
    (Config.defaultIncludeSymbols c) b
    (Config.saveHistory c) (Config.historyLimit c).

Definition with_saveHistory (b : bool) (c : Config.t) : Config.t :=
  Config.mk (Config.defaultLength c) (Config.defaultIncludeUppercase c)
    (Config.defaultIncludeLowercase c) (Config.defaultIncludeNumbers c)
    (Config.defaultIncludeSymbols c) (Config.autoCopy c)
    b (Config.historyLimit c).

Definition with_historyLimit (n : Z) (c : Config.t) : Config.t :=
  Config.mk (Config.defaultLength c) (Config.defaultIncludeUppercase c)
    (Config.defaultIncludeLowercase c) (Config.defaultIncludeNumbers c)
    (Config.defaultIncludeSymbols c) (Config.autoCopy c)
    (Config.saveHistory c) n.

(** What a successful [--set key=value] has done, [old] being the
    configuration loaded before and [new] the one loaded after: the key
    names a setting, whatever its case, the value is read as that setting
    wants it, and no other setting has changed. *)
Definition set_effect (key value : jsstring) (old new : Config.t) : Prop :=
  let lowered := Builtins.toLowerCase key in
  ((lowered = lit "defaultlength" ∨ lowered = lit "length")
   ∧ ∃ n, Builtins.parseInt value = Builtins.Integer n
          ∧ 4 ≤ n ≤ 128 ∧ new = with_defaultLength n old)
  ∨ (lowered = lit "autocopy"
     ∧ new = with_autoCopy
               (bool_decide (Builtins.toLowerCase value = lit "true")) old)
  ∨ (lowered = lit "savehistory"
     ∧ new = with_saveHistory
               (bool_decide (Builtins.toLowerCase value = lit "true")) old)
  ∨ (lowered = lit "historylimit"
     ∧ ∃ n, Builtins.parseInt value = Builtins.Integer n
            ∧ 0 ≤ n ≤ 1000 ∧ new = with_historyLimit n old).

(** A sample update and a sample file. *)
Definition longer_and_saving : Config.Partial.t :=
  Config.Partial.mk (Some (VNumber (Int 20))) None None None None None
    (Some (VBoolean true)) None.

Definition hand_edited : Config.file :=
  Config.Stored
    (Config.Raw.mk (VNumber (Int 16)) VUndefined (VBoolean false) VUndefined
       VUndefined VUndefined VUndefined VUndefined).

End ConfigSpec.

(** ** Vocabulary for the gen command *)

Module GenSpec.
Import Builtins GenCommand.

(** The length option of the command line is a number other than zero
    outside the bounds of the schema. *)
Definition length_rejected (options : CommandOptions) : Prop :=
  ∃ z, parseInt (or_string (length options) []) = Integer z
       ∧ z ≠ 0 ∧ ¬ (4 ≤ z ≤ 128).

(** The length command mode works with: the option when it reads as a
    number other than zero, the configured default otherwise. *)
Definition command_length (options : CommandOptions) (config : Config.t) : Z :=
  match parseInt (or_string (length options) []) with
  | Integer z => if bool_decide (z = 0) then Config.defaultLength config else z
  | NaN => Config.defaultLength config
  end.


(** Sample command lines: the defaults with [--save], a length of zero,
    a length of three. *)
Definition save_defaults : CommandOptions :=
  mkCommandOptions (Some (lit "12")) None None None None None None None
    (Some true) (Some true) (Some true).


Definition length_three : CommandOptions :=
  mkCommandOptions (Some (lit "3")) None None None None None None None
    None None None.

Definition env : Env := mkEnv false (lit "id-1") (lit "2025-01-01").

Definition hex_answers : Answers :=
  mkAnswers (Prompt.Answered (lit "0x10")) (Prompt.Answered [lit "numbers"])
    (Prompt.Answered []) (Prompt.Answered false) (Prompt.Answered false).

(** The same answers with the last two prompts cancelled, and with the
    exclusion prompt cancelled. *)
Definition hex_confirms_cancelled : Answers :=
  mkAnswers (Prompt.Answered (lit "0x10")) (Prompt.Answered [lit "numbers"])
    (Prompt.Answered []) Prompt.Cancelled Prompt.Cancelled.

Definition hex_exclude_cancelled : Answers :=
  mkAnswers (Prompt.Answered (lit "0x10")) (Prompt.Answered [lit "numbers"])
    Prompt.Cancelled (Prompt.Answered false) (Prompt.Answered false).

End GenSpec.

(** ** Vocabulary for the history *)

Module HistorySpec.

(** One call of [saveToHistory]: the identifier and the time it was
    given, the password and the options. *)
Record saving : Type := mkSaving {
  saving_uuid : jsstring;
  saving_now : jsstring;
  saving_password : jsstring;
  saving_options : PasswordOptions.t
}.

(** The entry the call puts in the history. *)
Definition entry_of (x : saving) : History.HistoryEntry :=
  History.mkEntry (saving_uuid x) (saving_password x)
    (History.mkEntryOptions
       (PasswordOptions.length (saving_options x))
       (PasswordOptions.includeUppercase (saving_options x))
       (PasswordOptions.includeLowercase (saving_options x))
       (PasswordOptions.includeNumbers (saving_options x))
       (PasswordOptions.includeSymbols (saving_options x))
       (PasswordOptions.includeExtraSymbols (saving_options x)))
    (saving_now x).

(** The calls made one after the other, the first of the list first. *)
Definition save_all (calls : list saving) (disk : History.file) : History.file :=
  foldl
    (λ disk x,
       History.saveToHistory (saving_uuid x) (saving_now x)
         (saving_password x) (saving_options x) disk)
    disk calls.

End HistorySpec.

(** ** Further sample inputs *)

Module MoreSamples.

(** The extended punctuation alone, without the ambiguous characters. *)
Definition plain_punctuation : PasswordOptions.t :=
  PasswordOptions.mk 4 false false false false true false true None None.

(** The argument of [--set length=16]. *)
Definition set_length_16 : jsstring := lit "length=16".

End MoreSamples.

(** ** Formatting done by the platform

    How a number and a date are printed is the platform's business: the
    text of a number ([toString], a template literal) and of a date in
    the user's locale.  The commands only pass these texts on. *)
Class Formatting : Type := {
  number_toString : Z → jsstring;
  toLocaleString : jsstring → jsstring;
  toLocaleDateString : jsstring → jsstring
}.

(** A formatting for tests: digits for the numbers used here, dates as
    they are stored. *)
Definition plain_formatting : Formatting := {|
  number_toString z :=
    lit (NilZero.string_of_int (Z.to_int z));
  toLocaleString date := date;
  toLocaleDateString date := date
|}.

(** ** The history command *)

Module HistoryCommand.
Import Builtins.

(** [parts.join(sep)] *)
Definition join_with (sep : jsstring) (parts : list jsstring) : jsstring :=
  match parts with
  | [] => []
  | first :: rest => first ++ mjoin ((λ part, sep ++ part) <$> rest)
  end.

(** [Math.min(limit, n)] where [limit] comes from [parseInt]. *)
Definition min_number (limit : parsed) (n : Z) : parsed :=
  match limit with
  | NaN => NaN
  | Integer l => Integer (Z.min l n)
  end.

(** [a.slice(0, limit)]: NaN as an index is 0. *)
Definition slice_to {A} (a : list A) (limit : parsed) : list A :=
  match limit with
  | NaN => slice a 0 0
  | Integer l => slice a 0 l
  end.

(** What the listing prints, colours and rules aside. *)
Inductive line : Type :=
| No_history
| Header (count : parsed) (total : Z)
| Row (number : Z) (date password settings : jsstring)
| Footer.

(** One option of the copy prompt. *)
Record choice : Type := mkChoice {
  value : jsstring;
  label : jsstring;
  hint : jsstring
}.

(** What the copy command did with the clipboard. *)
Inductive copy_result : Type :=
| Nothing_copied
| Written (password : jsstring)
| Write_failed.

Section Commands.
Context `{Formatting}.

Definition formatOptions (options : History.EntryOptions) : jsstring :=
  let parts := [] in
  let parts := parts ++ [lit "L:" ++ number_toString (History.length options)] in
  let parts :=
    if History.includeUppercase options then parts ++ [lit "A-Z"] else parts in
  let parts :=
    if History.includeLowercase options then parts ++ [lit "a-z"] else parts in
  let parts :=
    if History.includeNumbers options then parts ++ [lit "0-9"] else parts in
  let parts :=
    if History.includeSymbols options then parts ++ [lit "!@#"] else parts in
  let parts :=
    if History.includeExtraSymbols options then parts ++ [lit "[]{}"]
    else parts in
  join_with (lit " ") parts.

(** [listHistory(limit)] *)
Definition listHistory (limit : parsed) (disk : History.file) : list line :=
  let history := History.loadHistory disk in
  if bool_decide (Datatypes.length history = 0%nat) then [No_history]
  else
    let entries := slice_to history limit in
    [Header (min_number limit (Z.of_nat (Datatypes.length history)))
       (Z.of_nat (Datatypes.length history))]
    ++ imap
         (λ index entry,
            Row (Z.of_nat index + 1)
              (toLocaleString (History.createdAt entry))
              (History.maskPassword (History.password entry))
              (formatOptions (History.options entry)))
         entries
    ++ [Footer].

(** The options of the prompt of [copyFromHistory]. *)
Definition copy_choices (history : list History.HistoryEntry) : list choice :=
  (λ entry,
     mkChoice (History.id entry)
       (History.maskPassword (History.password entry)
        ++ lit " (" ++ toLocaleDateString (History.createdAt entry) ++ lit ")")
       (formatOptions (History.options entry)))
  <$> slice history 0 10.

(** [copyFromHistory], given what the prompt returned ([None] when it was
    cancelled: the value is then no string) and whether the clipboard
    takes the write. *)
Definition copyFromHistory (history : list History.HistoryEntry)
    (selectedId : option jsstring) (clipboard_ok : bool) : copy_result :=
  match selectedId with
  | None => Nothing_copied
  | Some selected =>
      match list_find (λ entry, History.id entry = selected) history with
      | Some (_, selectedEntry) =>
          if clipboard_ok then Written (History.password selectedEntry)
          else Write_failed
      | None => Nothing_copied
      end
  end.

End Commands.

(** [clearHistoryCommand], given whether the answer is truthy. *)
Definition clearHistoryCommand (confirmed : bool) (disk : History.file)
    : History.file :=
  if confirmed then History.clearHistory disk else disk.

End HistoryCommand.

(** ** The prompts of the config command *)

Module ConfigPrompts.
Import Builtins.

Section Prompts.
Context `{Formatting}.

(** The [validate] function of the default length prompt. *)
Definition validate_defaultLength (config : Config.t) (value : jsstring)
    : option string :=
  let num :=
    parseInt
      (or_string (Some value) (number_toString (Config.defaultLength config))) in
  match num with
  | NaN => Some "Length must be between 4 and 128"%string
  | Integer n =>
      if bool_decide (n < 4 ∨ n > 128)
      then Some "Length must be between 4 and 128"%string
      else None
  end.

(** The [validate] function of the history limit prompt. *)
Definition validate_historyLimit (config : Config.t) (value : jsstring)
    : option string :=
  let num :=
    parseInt
      (or_string (Some value) (number_toString (Config.historyLimit config))) in
  match num with
  | NaN => Some "Limit must be between 0 and 1000"%string
  | Integer n =>
      if bool_decide (n < 0 ∨ n > 1000)
      then Some "Limit must be between 0 and 1000"%string
      else None
  end.

End Prompts.

(** [configureDefaults], given what its five prompts resolved to: the
    object for [saveConfig] is put together first, the length parsed. *)
Definition configureDefaults (config : Config.t) (length : Prompt.t jsstring)
    (uppercase lowercase numbers symbols : Prompt.t bool) (disk : Config.file)
    : outcome () * Config.file :=
  match Prompt.parseInt length with
  | Throws e => (Throws e, disk)
  | Returns num =>
      Config.saveConfig
        (Config.Partial.mk
           (Some (VNumber (Int (or_number num (Config.defaultLength config)))))
           (Some (Prompt.boolean_value uppercase))
           (Some (Prompt.boolean_value lowercase))
           (Some (Prompt.boolean_value numbers))
           (Some (Prompt.boolean_value symbols))
           None None None)
        disk
  end.

(** [configureBehavior] *)
Definition configureBehavior (config : Config.t) (autoCopy : Prompt.t bool)
    (disk : Config.file) : outcome () * Config.file :=
  Config.saveConfig
    (Config.Partial.mk None None None None None
       (Some (Prompt.boolean_value autoCopy)) None None)
    disk.

(** [configureHistory]: the limit is only asked for when the answer to
    the first prompt is truthy, which a cancelled prompt is too. *)
Definition configureHistory (config : Config.t) (saveHistory : Prompt.t bool)
    (limitText : Prompt.t jsstring) (disk : Config.file)
    : outcome () * Config.file :=
  let historyLimit := Returns (Config.historyLimit config) in
  let historyLimit :=
    if Prompt.truthy saveHistory
    then num ← Prompt.parseInt limitText;
         Returns (or_number num (Config.historyLimit config))
    else historyLimit in
  match historyLimit with
  | Throws e => (Throws e, disk)
  | Returns historyLimit =>
      Config.saveConfig
        (Config.Partial.mk None None None None None None
           (Some (Prompt.boolean_value saveHistory))
           (Some (VNumber (Int historyLimit))))
        disk
  end.

End ConfigPrompts.

(** ** Vocabulary for the history command *)

Module HistoryCommandSpec.

(** How many of [n] entries a listing with the given limit shows: none
    for a limit that is no number, the first [limit] for a limit from 0
    on, all but the last [-limit] for a negative one. *)
Definition kept (limit : Builtins.parsed) (n : nat) : nat :=
  match limit with
  | Builtins.NaN => 0
  | Builtins.Integer l =>
      if bool_decide (l < 0) then Z.to_nat (Z.of_nat n + l)
      else Z.to_nat l `min` n
  end.

(** Three saved entries, the newest first. *)
Definition three_entries : list History.HistoryEntry :=
  [History.mkEntry (lit "id-3") (lit "Tr0ub4dor&3")
     (History.mkEntryOptions 11 true true true true false) (lit "2025-03-01");
   History.mkEntry (lit "id-2") (lit "abcdOPQRhijk")
     (History.mkEntryOptions 12 true true true true false) (lit "2025-02-01");
   History.mkEntry (lit "id-1") (lit "abc")
     (History.mkEntryOptions 3 false true false false false) (lit "2025-01-01")].

End HistoryCommandSpec.

(** * Properties *)

(** ** Charset builder *)

Section CharsetBuilder.
Import PasswordGenerator.

Lemma includes_false excluded c : includes excluded c = false ↔ c ∉ excluded.
Proof. unfold includes. by rewrite bool_decide_eq_false. Qed.

Lemma elem_of_without excluded charset c :
  c ∈ without excluded charset ↔ c ∈ charset ∧ c ∉ excluded.
Proof.
  unfold without. rewrite list_elem_of_filter, includes_false. tauto.
Qed.

Lemma without_sublist excluded charset :
  without excluded charset `sublist_of` charset.
Proof. apply sublist_filter. Qed.

Lemma append_if_app flag cls charset :
  append_if flag cls charset = charset ++ (if flag then cls else []).
Proof. destruct flag; simpl; by rewrite ?app_nil_r. Qed.

Lemma buildCharset_unfold o :
  buildCharset o =
    (if PasswordOptions.excludeAmbiguous o then without AMBIGUOUS_CHARS else id)
      ((if PasswordOptions.excludeSimilar o then without SIMILAR_CHARS else id)
         (mjoin (Spec.enabled_classes o))).
Proof.
  unfold buildCharset, Spec.enabled_classes.
  rewrite !append_if_app.
  destruct o as [n up lo nu sy ex si am cc pa]; simpl.
  assert (([] ++ (if lo then LOWERCASE else []) ++ (if up then UPPERCASE else [])
             ++ (if nu then NUMBERS else []) ++ (if sy then SYMBOLS else [])
             ++ (if ex then EXTRA_SYMBOLS else []))
          = mjoin ((if lo then [LOWERCASE] else []) ++
                   (if up then [UPPERCASE] else []) ++
                   (if nu then [NUMBERS] else []) ++
                   (if sy then [SYMBOLS] else []) ++
                   (if ex then [EXTRA_SYMBOLS] else []))) as Hpool.
  { destruct lo, up, nu, sy, ex; simpl; by rewrite ?app_nil_r. }
  rewrite <- Hpool, <- !(assoc_L (++)).
  by destruct si, am.
Qed.

Lemma same_flags_enabled_classes o o' :
  Spec.same_flags o o' → Spec.enabled_classes o' = Spec.enabled_classes o.
Proof.
  intros (Hlo & Hup & Hnu & Hsy & Hex & _).
  unfold Spec.enabled_classes. by rewrite Hlo, Hup, Hnu, Hsy, Hex.
Qed.

Lemma elem_of_buildCharset o c :
  c ∈ buildCharset o ↔
    c ∈ mjoin (Spec.enabled_classes o)
    ∧ (PasswordOptions.excludeSimilar o = true → c ∉ SIMILAR_CHARS)
    ∧ (PasswordOptions.excludeAmbiguous o = true → c ∉ AMBIGUOUS_CHARS).
Proof.
  rewrite buildCharset_unfold.
  destruct (PasswordOptions.excludeAmbiguous o),
           (PasswordOptions.excludeSimilar o);
    unfold id; rewrite ?elem_of_without; intuition congruence.
Qed.

(** No filter empties a class: each class has a unit that is neither
    similar nor ambiguous. *)
Lemma some_class_buildCharset o : Spec.some_class o → buildCharset o ≠ [].
Proof.
  intros Hsome.
  enough (∃ c, c ∈ buildCharset o) as [c Hc].
  { intros Heq. rewrite Heq in Hc. by apply not_elem_of_nil in Hc. }
  assert (∃ c cls, cls ∈ Spec.enabled_classes o ∧ c ∈ cls
                   ∧ (c ∉ SIMILAR_CHARS) ∧ (c ∉ AMBIGUOUS_CHARS))
    as (c & cls & Hcls & Hc & Hsim & Hamb).
  { unfold Spec.enabled_classes.
    destruct Hsome as [Hf|[Hf|[Hf|[Hf|Hf]]]]; rewrite Hf.
    - exists 97%N, LOWERCASE. rewrite !elem_of_app, list_elem_of_singleton.
      split; [by left|]. repeat split; by apply (bool_decide_unpack _).
    - exists 65%N, UPPERCASE. rewrite !elem_of_app, list_elem_of_singleton.
      split; [by right; left|]. repeat split; by apply (bool_decide_unpack _).
    - exists 50%N, NUMBERS. rewrite !elem_of_app, list_elem_of_singleton.
      split; [by right; right; left|].
      repeat split; by apply (bool_decide_unpack _).
    - exists 33%N, SYMBOLS. rewrite !elem_of_app, list_elem_of_singleton.
      split; [by right; right; right; left|].
      repeat split; by apply (bool_decide_unpack _).
    - exists 95%N, EXTRA_SYMBOLS. rewrite !elem_of_app, list_elem_of_singleton.
      split; [by right; right; right; right|].
      repeat split; by apply (bool_decide_unpack _). }
  exists c. apply elem_of_buildCharset.
  split; [|done]. apply list_elem_of_join. eauto.
Qed.

Lemma no_class_buildCharset o :
  PasswordOptions.includeLowercase o = false →
  PasswordOptions.includeUppercase o = false →
  PasswordOptions.includeNumbers o = false →
  PasswordOptions.includeSymbols o = false →
  PasswordOptions.includeExtraSymbols o = false →
  buildCharset o = [].
Proof.
  intros Hlo Hup Hnu Hsy Hex. rewrite buildCharset_unfold.
  unfold Spec.enabled_classes. rewrite Hlo, Hup, Hnu, Hsy, Hex. simpl.
  by destruct (PasswordOptions.excludeAmbiguous o),
              (PasswordOptions.excludeSimilar o).
Qed.

(** C7: the pool is the concatenation of the enabled classes in the order
    lowercase, uppercase, numbers, symbols, extra symbols, from which the
    similar characters are removed when [excludeSimilar] is set and then
    the ambiguous ones when [excludeAmbiguous] is set.  Each filter keeps
    the survivors in their relative order (its result is a subsequence of
    its input), a unit is in the pool exactly when an enabled class has it
    and no requested filter excludes it, and the pool depends on nothing
    but the seven flags: the same options give the same pool. *)
Theorem buildCharset_order_filters_deterministic (o : PasswordOptions.t) :
  let classes := mjoin (Spec.enabled_classes o) in
  let similar_out :=
    if PasswordOptions.excludeSimilar o
    then without SIMILAR_CHARS classes else classes in
  buildCharset o =
    (if PasswordOptions.excludeAmbiguous o
     then without AMBIGUOUS_CHARS similar_out else similar_out)
  ∧ similar_out `sublist_of` classes
  ∧ buildCharset o `sublist_of` similar_out
  ∧ (∀ c, c ∈ buildCharset o ↔
          c ∈ classes
          ∧ (PasswordOptions.excludeSimilar o = true → c ∉ SIMILAR_CHARS)
          ∧ (PasswordOptions.excludeAmbiguous o = true → c ∉ AMBIGUOUS_CHARS))
  ∧ (∀ o', Spec.same_flags o o' → buildCharset o' = buildCharset o).
Proof.
  intros classes similar_out.
  assert (buildCharset o =
          (if PasswordOptions.excludeAmbiguous o
           then without AMBIGUOUS_CHARS similar_out else similar_out)) as Hb.
  { rewrite buildCharset_unfold. subst similar_out classes.
    by destruct (PasswordOptions.excludeAmbiguous o),
                (PasswordOptions.excludeSimilar o). }
  split; [exact Hb|].
  split.
  { subst similar_out.
    destruct (PasswordOptions.excludeSimilar o); [apply without_sublist|done]. }
  split.
  { rewrite Hb.
    destruct (PasswordOptions.excludeAmbiguous o); [apply without_sublist|done]. }
  split.
  { intros c. rewrite Hb. subst similar_out.
    destruct (PasswordOptions.excludeAmbiguous o),
             (PasswordOptions.excludeSimilar o);
      rewrite ?elem_of_without; intuition congruence. }
  intros o' Hsame. rewrite !buildCharset_unfold.
  rewrite (same_flags_enabled_classes o o' Hsame).
  destruct Hsame as (_ & _ & _ & _ & _ & Hsi & Ham).
  by rewrite Hsi, Ham.
Qed.

End CharsetBuilder.

(** ** Secure sampler *)

Section SamplerFacts.
Context `{SecureRandom}.
Import PasswordGenerator.

Lemma bind_returns {A B} (m : M A) (k : A → M B) g a g' :
  m g = (Returns a, g') → (m ≫= k) g = k a g'.
Proof. intros Hm. unfold mbind, M_bind. by rewrite Hm. Qed.

Lemma bind_throws {A B} (m : M A) (k : A → M B) g e g' :
  m g = (Throws e, g') → (m ≫= k) g = (Throws e, g').
Proof. intros Hm. unfold mbind, M_bind. by rewrite Hm. Qed.

Lemma crypto_randomInt_returns n g :
  0 < n →
  ∃ k g', crypto_randomInt 0 n g = (Returns k, g') ∧ 0 ≤ k < n.
Proof.
  intros Hn. unfold crypto_randomInt.
  rewrite bool_decide_eq_false_2 by lia.
  pose proof (draw_range 0 n g Hn) as Hr.
  destruct (draw 0 n g) as [k g'] eqn:Hd. simpl in Hr. eauto.
Qed.

Lemma join_Some (l : jsstring) : join (Some <$> l) = l.
Proof. unfold join. induction l as [|c l IH]; [done|]. csimpl. by f_equal. Qed.

Lemma strlen_pos (s : jsstring) : s ≠ [] → 0 < strlen s.
Proof. unfold strlen. destruct s; [done|]. simpl. lia. Qed.

(** The loop invariant: the slots below [i] hold units of the charset,
    the others are still holes. *)
Lemma fill_returns charset remaining :
  charset ≠ [] →
  ∀ (filled : jsstring) g,
    Forall (λ c, c ∈ charset) filled →
    ∃ more g',
      fill charset remaining (length filled)
        ((Some <$> filled) ++ replicate remaining None) g
      = (Returns (Some <$> (filled ++ more)), g')
      ∧ length more = remaining
      ∧ Forall (λ c, c ∈ charset) more.
Proof.
  intros Hne. induction remaining as [|remaining IH]; intros filled g Hfilled.
  - exists [], g. simpl. by rewrite !app_nil_r.
  - destruct (crypto_randomInt_returns (strlen charset) g (strlen_pos _ Hne))
      as (k & g1 & Hk & Hrange).
    cbn [fill]. rewrite (bind_returns _ _ _ _ _ Hk). cbv beta.
    match goal with
    | |- context [<[_ := ?slot]> _] => destruct slot as [c|] eqn:Hc
    end; cycle 1.
    { apply lookup_ge_None in Hc. unfold strlen in Hrange. lia. }
    assert (<[length filled := Some c]>
              ((Some <$> filled) ++ replicate (S remaining) None)
            = (Some <$> (filled ++ [c])) ++ replicate remaining None) as ->.
    { rewrite insert_app_r_alt by (rewrite length_fmap; lia).
      rewrite length_fmap, Nat.sub_diag. simpl.
      by rewrite fmap_app, <- (assoc_L (++)). }
    assert (S (length filled) = length (filled ++ [c])) as ->.
    { rewrite length_app. simpl. lia. }
    destruct (IH (filled ++ [c]) g1) as (more & g' & Hfill & Hlen & Hmore).
    { apply Forall_app. split; [done|].
      apply Forall_singleton. by eapply list_elem_of_lookup_2. }
    exists (c :: more), g'. rewrite Hfill, <- (assoc_L (++)). simpl.
    split; [done|]. split; [by rewrite Hlen|].
    constructor; [by eapply list_elem_of_lookup_2|done].
Qed.

(** From a non-empty charset the sampler returns [length] units of it. *)
Lemma generateSecurePassword_returns charset length g :
  charset ≠ [] → 0 ≤ length ≤ 4294967295 →
  ∃ s g',
    generateSecurePassword charset length g = (Returns s, g')
    ∧ strlen s = length
    ∧ ∀ c, c ∈ s → c ∈ charset.
Proof.
  intros Hne Hlen. unfold generateSecurePassword.
  rewrite bool_decide_eq_false_2 by lia.
  destruct (fill_returns charset (Z.to_nat length) Hne [] g)
    as (more & g' & Hfill & Hmore & Hin); [done|].
  simpl in Hfill. exists more, g'.
  rewrite (bind_returns _ _ _ _ _ Hfill), join_Some.
  split; [done|]. split; [unfold strlen; lia|].
  by apply Forall_forall.
Qed.

End SamplerFacts.

(** ** The options schema *)

Section Schema.

Lemma number_returns lo hi d v z :
  Zod.number_int_min_max_default lo hi d v = Returns z ↔
    (v = VUndefined ∧ z = d) ∨ (v = VNumber (Int z) ∧ lo ≤ z ≤ hi).
Proof.
  unfold Zod.number_int_min_max_default.
  destruct v as [| |b|[n|]|s| |]; try (intuition congruence).
  case_bool_decide; split; try (intuition congruence).
  intros [[? ?]|[[= ->] ?]]; [done|tauto].
Qed.

Lemma boolean_returns d v b :
  Zod.boolean_default d v = Returns b ↔
    (v = VUndefined ∧ b = d) ∨ v = VBoolean b.
Proof. destruct v; simpl; intuition congruence. Qed.

Lemma string_returns v s :
  Zod.string_optional v = Returns s ↔
    (v = VUndefined ∧ s = None) ∨ (∃ str, v = VString str ∧ s = Some str).
Proof.
  destruct v; simpl;
    (split; [intros [= <-]; eauto|intros [[? ?]|(str & ? & ?)]; congruence]).
Qed.

Lemma number_throws lo hi d v e :
  Zod.number_int_min_max_default lo hi d v = Throws e → e = ZodError.
Proof.
  unfold Zod.number_int_min_max_default.
  destruct v as [| |b|[n|]|s| |]; try case_bool_decide; congruence.
Qed.

Lemma boolean_throws d v e : Zod.boolean_default d v = Throws e → e = ZodError.
Proof. destruct v; simpl; congruence. Qed.

Lemma string_throws v e : Zod.string_optional v = Throws e → e = ZodError.
Proof. destruct v; simpl; congruence. Qed.

(** One key of the schema at a time: either the key is rejected and so is
    the whole input, or the parse goes on with the value found. *)
Ltac next_key :=
  match goal with
  | |- context [mbind _ ?m] =>
      let Hm := fresh "Hkey" in
      destruct m eqn:Hm; cbn [mbind outcome_bind]
  end.

(** The schema accepts an input exactly when it accepts each key. *)
Lemma parse_returns o v :
  PasswordOptionsSchema_parse o = Returns v ↔
    Zod.number_int_min_max_default 4 128 12 (Input.length o)
      = Returns (PasswordOptions.length v)
    ∧ Zod.boolean_default true (Input.includeUppercase o)
      = Returns (PasswordOptions.includeUppercase v)
    ∧ Zod.boolean_default true (Input.includeLowercase o)
      = Returns (PasswordOptions.includeLowercase v)
    ∧ Zod.boolean_default true (Input.includeNumbers o)
      = Returns (PasswordOptions.includeNumbers v)
    ∧ Zod.boolean_default true (Input.includeSymbols o)
      = Returns (PasswordOptions.includeSymbols v)
    ∧ Zod.boolean_default false (Input.includeExtraSymbols o)
      = Returns (PasswordOptions.includeExtraSymbols v)
    ∧ Zod.boolean_default false (Input.excludeSimilar o)
      = Returns (PasswordOptions.excludeSimilar v)
    ∧ Zod.boolean_default false (Input.excludeAmbiguous o)
      = Returns (PasswordOptions.excludeAmbiguous v)
    ∧ Zod.string_optional (Input.customChars o)
      = Returns (PasswordOptions.customChars v)
    ∧ Zod.string_optional (Input.pattern o)
      = Returns (PasswordOptions.pattern v).
Proof.
  unfold PasswordOptionsSchema_parse. destruct v; simpl.
  repeat (next_key; [|intuition congruence]).
  unfold mret, outcome_ret. intuition congruence.
Qed.

(** What the schema throws is a [ZodError]. *)
Lemma parse_throws o e : PasswordOptionsSchema_parse o = Throws e → e = ZodError.
Proof.
  unfold PasswordOptionsSchema_parse.
  repeat (next_key;
          [|intros [= <-];
            eauto using number_throws, boolean_throws, string_throws]).
  discriminate.
Qed.

Lemma parse_length_bounds o v :
  PasswordOptionsSchema_parse o = Returns v → 4 ≤ PasswordOptions.length v ≤ 128.
Proof.
  intros Hv. apply parse_returns in Hv as [Hlen _].
  apply number_returns in Hlen as [[_ ->]|[_ ?]]; lia.
Qed.

Lemma parse_length_given o v n :
  PasswordOptionsSchema_parse o = Returns v →
  Input.length o = VNumber (Int n) → PasswordOptions.length v = n.
Proof.
  intros Hv Hn. apply parse_returns in Hv as [Hlen _].
  rewrite Hn in Hlen. apply number_returns in Hlen as [[? _]|[? _]]; congruence.
Qed.

Lemma boolean_typed d v :
  Spec.boolean_or_absent v → ∃ b, Zod.boolean_default d v = Returns b.
Proof. intros [->|[b ->]]; simpl; eauto. Qed.

(** A typed options record within the length bounds passes the schema
    unchanged. *)
Lemma parse_of_options p :
  4 ≤ PasswordOptions.length p ≤ 128 →
  PasswordOptionsSchema_parse (of_options p) = Returns p.
Proof.
  intros Hlen. apply parse_returns. destruct p as [n ? ? ? ? ? ? ? cc pa].
  simpl in *. rewrite bool_decide_eq_true_2 by done.
  by destruct cc, pa.
Qed.

(** Acceptance does not depend on the values of well-typed flags, and
    neither do the validated length and custom characters. *)
Lemma parse_flags_irrelevant o o' v :
  Spec.flags_well_typed o' → Spec.same_but_flags o o' →
  PasswordOptionsSchema_parse o = Returns v →
  ∃ v', PasswordOptionsSchema_parse o' = Returns v'
        ∧ PasswordOptions.length v' = PasswordOptions.length v
        ∧ PasswordOptions.customChars v' = PasswordOptions.customChars v.
Proof.
  intros (Hup & Hlo & Hnu & Hsy & Hex & Hsi & Ham) (Hl & Hc & Hp) Hparse.
  apply parse_returns in Hparse
    as (Hlen & _ & _ & _ & _ & _ & _ & _ & Hcustom & Hpattern).
  destruct (boolean_typed true _ Hup) as [up Hup'].
  destruct (boolean_typed true _ Hlo) as [lo Hlo'].
  destruct (boolean_typed true _ Hnu) as [nu Hnu'].
  destruct (boolean_typed true _ Hsy) as [sy Hsy'].
  destruct (boolean_typed false _ Hex) as [ex Hex'].
  destruct (boolean_typed false _ Hsi) as [si Hsi'].
  destruct (boolean_typed false _ Ham) as [am Ham'].
  exists (PasswordOptions.mk (PasswordOptions.length v) up lo nu sy ex si am
            (PasswordOptions.customChars v) (PasswordOptions.pattern v)).
  split; [|done]. apply parse_returns. simpl.
  rewrite <- Hl, <- Hc, <- Hp. tauto.
Qed.

End Schema.

(** ** The generator *)

Section GeneratorFacts.
Context `{SecureRandom}.
Import PasswordGenerator.

Lemma generate_invalid o e g :
  PasswordOptionsSchema_parse o = Throws e → generate o g = (Throws e, g).
Proof.
  intros Hparse. unfold generate.
  apply bind_throws. unfold lift. by rewrite Hparse.
Qed.

Lemma pool_empty_strlen (pool : jsstring) : strlen pool = 0 ↔ pool = [].
Proof. unfold strlen. destruct pool; simpl; split; (done || lia). Qed.

(** Past validation, [generate] throws on an empty pool and samples from
    the pool otherwise. *)
Lemma generate_valid o v g :
  PasswordOptionsSchema_parse o = Returns v →
  generate o g =
    if bool_decide (Spec.resolved_pool v = [])
    then (Throws Spec.empty_charset_error, g)
    else generateSecurePassword (Spec.resolved_pool v)
           (PasswordOptions.length v) g.
Proof.
  intros Hparse. unfold generate.
  rewrite (bind_returns _ _ g v g) by (unfold lift; by rewrite Hparse).
  unfold Spec.resolved_pool, truthy, generateFromCustomChars.
  destruct (PasswordOptions.customChars v) as [[|c cs]|].
  - destruct (buildCharset v); done.
  - done.
  - destruct (buildCharset v); done.
Qed.

Lemma generate_returns o v g :
  PasswordOptionsSchema_parse o = Returns v →
  Spec.resolved_pool v ≠ [] →
  ∃ s g',
    generate o g = (Returns s, g')
    ∧ strlen s = PasswordOptions.length v
    ∧ ∀ c, c ∈ s → c ∈ Spec.resolved_pool v.
Proof.
  intros Hparse Hpool. rewrite (generate_valid o v g Hparse).
  rewrite bool_decide_eq_false_2 by done.
  apply generateSecurePassword_returns; [done|].
  pose proof (parse_length_bounds o v Hparse). lia.
Qed.

Lemma generate_throws_empty o v g :
  PasswordOptionsSchema_parse o = Returns v →
  Spec.resolved_pool v = [] →
  generate o g = (Throws Spec.empty_charset_error, g).
Proof.
  intros Hparse Hpool. rewrite (generate_valid o v g Hparse).
  by rewrite bool_decide_eq_true_2.
Qed.

(** Every run of [generate] is of one of three kinds. *)
Lemma generate_cases o g :
  (PasswordOptionsSchema_parse o = Throws ZodError
   ∧ generate o g = (Throws ZodError, g))
  ∨ (∃ v, PasswordOptionsSchema_parse o = Returns v
          ∧ Spec.resolved_pool v = []
          ∧ generate o g = (Throws Spec.empty_charset_error, g))
  ∨ (∃ v s g', PasswordOptionsSchema_parse o = Returns v
          ∧ Spec.resolved_pool v ≠ []
          ∧ generate o g = (Returns s, g')
          ∧ strlen s = PasswordOptions.length v
          ∧ ∀ c, c ∈ s → c ∈ Spec.resolved_pool v).
Proof.
  destruct (PasswordOptionsSchema_parse o) as [v|e] eqn:Hparse.
  - right. destruct (decide (Spec.resolved_pool v = [])) as [Hpool|Hpool].
    + left. exists v. eauto using generate_throws_empty.
    + right. destruct (generate_returns o v g Hparse Hpool) as (s & g' & ?).
      exists v, s, g'. tauto.
  - left. pose proof (parse_throws o e Hparse) as ->.
    eauto using generate_invalid.
Qed.

(** C1, amended: for every input the schema accepts whose resolved pool is
    not empty, [generate] returns a string that has exactly as many units
    as the validated length (the length given, when one is given) and
    whose every unit is an element of the resolved pool: the custom string
    when there is a non-empty one, the built charset otherwise. *)
Theorem generate_length_and_pool o v g :
  PasswordOptionsSchema_parse o = Returns v →
  Spec.resolved_pool v ≠ [] →
  ∃ s g',
    generate o g = (Returns s, g')
    ∧ strlen s = PasswordOptions.length v
    ∧ (∀ n, Input.length o = VNumber (Int n) → strlen s = n)
    ∧ (∀ c, c ∈ s → c ∈ Spec.resolved_pool v).
Proof.
  intros Hparse Hpool.
  destruct (generate_returns o v g Hparse Hpool) as (s & g' & Hgen & Hlen & Hin).
  exists s, g'. repeat split; try done.
  intros n Hn. rewrite Hlen. by eapply parse_length_given.
Qed.

(** C2, amended: [generate] throws exactly when the schema rejects the
    input or the resolved pool is empty; what it throws is the
    [ZodError] of the schema in the first case and the empty-charset
    [Error] in the second, and validation comes first.  Accepted options
    with a class enabled never meet the empty-charset error (no filter can
    empty a class), and accepted options with every class off and no
    custom characters always do. *)
Theorem generate_throws_iff o g :
  ((∃ e g', generate o g = (Throws e, g')) ↔
     PasswordOptionsSchema_parse o = Throws ZodError
     ∨ (∃ v, PasswordOptionsSchema_parse o = Returns v
             ∧ Spec.resolved_pool v = []))
  ∧ (∀ e g', generate o g = (Throws e, g') →
       (Spec.ValidationError e
        ∧ PasswordOptionsSchema_parse o = Throws ZodError)
       ∨ (Spec.GenerationError e
          ∧ ∃ v, PasswordOptionsSchema_parse o = Returns v
                 ∧ Spec.resolved_pool v = []))
  ∧ (∀ v, PasswordOptionsSchema_parse o = Returns v →
          Spec.some_class v →
          buildCharset v ≠ []
          ∧ (∃ s g', generate o g = (Returns s, g'))
          ∧ (∀ e g', generate o g = (Throws e, g') → ¬ Spec.GenerationError e))
  ∧ (∀ v, PasswordOptionsSchema_parse o = Returns v →
          PasswordOptions.includeLowercase v = false →
          PasswordOptions.includeUppercase v = false →
          PasswordOptions.includeNumbers v = false →
          PasswordOptions.includeSymbols v = false →
          PasswordOptions.includeExtraSymbols v = false →
          PasswordOptions.customChars v = None →
          Spec.GenerationError Spec.empty_charset_error
          ∧ generate o g = (Throws Spec.empty_charset_error, g)).
Proof.
  assert (Spec.GenerationError Spec.empty_charset_error) as Hclass
    by (by eexists).
  split; [|split; [|split]].
  - destruct (generate_cases o g)
      as [[Hp Hg]|[(v & Hp & Hpool & Hg)|(v & s & g' & Hp & Hpool & Hg & _)]].
    + split; eauto.
    + split; eauto.
    + split.
      * intros (e & g'' & Hthrows). congruence.
      * intros [Hthrows|(v' & Hp' & Hpool')]; congruence.
  - intros e g' Hthrows.
    destruct (generate_cases o g)
      as [[Hp Hg]|[(v & Hp & Hpool & Hg)|(v & s & g'' & Hp & Hpool & Hg & _)]].
    + left. split; [unfold Spec.ValidationError|]; congruence.
    + right. split; [|eauto].
      replace e with Spec.empty_charset_error by congruence. done.
    + congruence.
  - intros v Hp Hsome.
    pose proof (some_class_buildCharset v Hsome) as Hbuilt.
    assert (Spec.resolved_pool v ≠ []) as Hpool.
    { unfold Spec.resolved_pool.
      by destruct (PasswordOptions.customChars v) as [[|c cs]|]. }
    destruct (generate_returns o v g Hp Hpool) as (s & g' & Hg & _).
    split; [done|]. split; [eauto|]. intros e g'' Hthrows. congruence.
  - intros v Hp Hlo Hup Hnu Hsy Hex Hcustom. split; [done|].
    apply (generate_throws_empty o v g Hp).
    unfold Spec.resolved_pool. rewrite Hcustom.
    by apply no_class_buildCharset.
Qed.

(** C5: with a non-empty [customChars] the custom string is the pool, as
    it stands: [generate] is the sampler run on that very string (its
    duplicates included), every unit returned comes from it, and two
    inputs that differ only in their (well-typed) class and exclusion
    flags give the same result.  With [customChars] set to the two units
    of "ab" and a length of 10, the result has ten units, each the unit of
    a or the unit of b. *)
Theorem generate_customChars g :
  (∀ o custom,
     Input.customChars o = VString custom → custom ≠ [] →
     (∀ v, PasswordOptionsSchema_parse o = Returns v →
           Spec.resolved_pool v = custom
           ∧ generate o g
             = generateSecurePassword custom (PasswordOptions.length v) g)
     ∧ (∀ s g', generate o g = (Returns s, g') → ∀ c, c ∈ s → c ∈ custom)
     ∧ (∀ o', Spec.flags_well_typed o → Spec.flags_well_typed o' →
              Spec.same_but_flags o o' → generate o' g = generate o g))
  ∧ (∀ p, PasswordOptions.customChars p = Some (lit "ab") →
          PasswordOptions.length p = 10 →
          ∃ s g', generate (of_options p) g = (Returns s, g')
                  ∧ strlen s = 10
                  ∧ ∀ c, c ∈ s → c = 97%N ∨ c = 98%N).
Proof.
  assert (∀ o custom v,
            Input.customChars o = VString custom → custom ≠ [] →
            PasswordOptionsSchema_parse o = Returns v →
            Spec.resolved_pool v = custom) as Hresolved.
  { intros o custom v Hcustom Hne Hparse.
    apply parse_returns in Hparse as (_ & _ & _ & _ & _ & _ & _ & _ & Hc & _).
    rewrite Hcustom in Hc. simpl in Hc. injection Hc as Hc.
    unfold Spec.resolved_pool. rewrite <- Hc. by destruct custom. }
  assert (∀ o custom v,
            Input.customChars o = VString custom → custom ≠ [] →
            PasswordOptionsSchema_parse o = Returns v →
            generate o g
            = generateSecurePassword custom (PasswordOptions.length v) g)
    as Hsampler.
  { intros o custom v Hcustom Hne Hparse.
    rewrite (generate_valid o v g Hparse), (Hresolved o custom v) by done.
    by rewrite bool_decide_eq_false_2. }
  split.
  - intros o custom Hcustom Hne. split; [|split].
    + intros v Hparse. eauto.
    + intros s g' Hgen c Hc.
      destruct (generate_cases o g)
        as [[_ Hg]|[(v & _ & _ & Hg)|(v & s' & g'' & Hp & _ & Hg & _ & Hin)]];
        [congruence..|].
      rewrite <- (Hresolved o custom v Hcustom Hne Hp).
      apply Hin. congruence.
    + intros o' Htyped Htyped' Hsame.
      assert (Input.customChars o' = VString custom) as Hcustom'.
      { destruct Hsame as (_ & <- & _). done. }
      assert (Spec.same_but_flags o' o) as Hsame'.
      { destruct Hsame as (? & ? & ?). by repeat split. }
      destruct (PasswordOptionsSchema_parse o) as [v|e] eqn:Hp.
      * destruct (parse_flags_irrelevant o o' v Htyped' Hsame Hp)
          as (v' & Hp' & Hlen & _).
        rewrite (Hsampler o custom v), (Hsampler o' custom v') by done.
        by rewrite Hlen.
      * destruct (PasswordOptionsSchema_parse o') as [v'|e'] eqn:Hp'.
        { destruct (parse_flags_irrelevant o' o v' Htyped Hsame' Hp')
            as (v & Hv & _). congruence. }
        rewrite (generate_invalid o e g Hp), (generate_invalid o' e' g Hp').
        by rewrite (parse_throws o e Hp), (parse_throws o' e' Hp').
  - intros p Hcustom Hlen.
    assert (PasswordOptionsSchema_parse (of_options p) = Returns p) as Hp
      by (apply parse_of_options; lia).
    assert (Spec.resolved_pool p = lit "ab") as Hpool
      by (unfold Spec.resolved_pool; by rewrite Hcustom).
    destruct (generate_returns (of_options p) p g Hp) as (s & g' & Hg & Hl & Hin).
    { by rewrite Hpool. }
    exists s, g'. split; [done|]. split; [congruence|].
    intros c Hc. apply Hin in Hc. rewrite Hpool in Hc.
    change (lit "ab") with [97%N; 98%N] in Hc.
    apply elem_of_cons in Hc as [->|Hc]; [by left|].
    apply list_elem_of_singleton in Hc as ->. by right.
Qed.

(** C6, amended: when [excludeSimilar] is true and no non-empty
    [customChars] is given, no unit of the string [generate] returns is
    one of the seven similar characters. *)
Theorem generate_excludeSimilar o g s g' :
  Input.excludeSimilar o = VBoolean true →
  Input.customChars o = VUndefined ∨ Input.customChars o = VString [] →
  generate o g = (Returns s, g') →
  ∀ c, c ∈ s → c ∉ lit "il1Lo0O".
Proof.
  intros Hsimilar Hcustom Hgen c Hc.
  destruct (generate_cases o g)
    as [[_ Hg]|[(v & _ & _ & Hg)|(v & s' & g'' & Hp & _ & Hg & _ & Hin)]];
    [congruence..|].
  assert (s' = s) as -> by congruence.
  apply Hin in Hc.
  apply parse_returns in Hp as (_ & _ & _ & _ & _ & _ & Hsi & _ & Hcc & _).
  rewrite Hsimilar in Hsi. simpl in Hsi. injection Hsi as Hsi.
  assert (Spec.resolved_pool v = buildCharset v) as Hpool.
  { unfold Spec.resolved_pool.
    destruct Hcustom as [Hu|Hu]; rewrite Hu in Hcc; simpl in Hcc;
      by injection Hcc as <-. }
  rewrite Hpool in Hc. apply elem_of_buildCharset in Hc as (_ & Hout & _).
  by apply Hout.
Qed.

End GeneratorFacts.

(** ** Runs of the generator on the test source *)

Section GeneratorRuns.
Import PasswordGenerator.

(** C1 at the default options. *)
Lemma generate_length_and_pool_witness :
  PasswordOptionsSchema_parse (of_options Sample.defaults)
    = Returns Sample.defaults
  ∧ Spec.resolved_pool Sample.defaults ≠ []
  ∧ ∃ s g',
      @generate tape_source (of_options Sample.defaults) Sample.tape
        = (Returns s, g')
      ∧ strlen s = PasswordOptions.length Sample.defaults
      ∧ (∀ n, Input.length (of_options Sample.defaults) = VNumber (Int n) →
              strlen s = n)
      ∧ (∀ c, c ∈ s → c ∈ Spec.resolved_pool Sample.defaults).
Proof.
  assert (PasswordOptionsSchema_parse (of_options Sample.defaults)
          = Returns Sample.defaults) as Hparse by reflexivity.
  assert (Spec.resolved_pool Sample.defaults ≠ []) as Hpool
    by (vm_compute; discriminate).
  split; [exact Hparse|]. split; [exact Hpool|].
  exact (generate_length_and_pool (H:=tape_source)
           (of_options Sample.defaults) Sample.defaults Sample.tape
           Hparse Hpool).
Defined.

(** C1 as first stated fails: the schema accepts options with every
    class switched off, and [generate] returns no string for them. *)
Lemma generate_accepted_no_class_returns_nothing :
  PasswordOptionsSchema_parse (of_options Sample.no_class)
    = Returns Sample.no_class
  ∧ ¬ ∃ s g',
        @generate tape_source (of_options Sample.no_class) Sample.tape
          = (Returns s, g').
Proof.
  split; [reflexivity|].
  intros (s & g' & Hgen). vm_compute in Hgen. discriminate Hgen.
Qed.

(** C2 at options with every class switched off. *)
Lemma generate_throws_iff_witness :
  Spec.GenerationError Spec.empty_charset_error
  ∧ @generate tape_source (of_options Sample.no_class) Sample.tape
      = (Throws Spec.empty_charset_error, Sample.tape).
Proof.
  destruct (generate_throws_iff (H:=tape_source)
              (of_options Sample.no_class) Sample.tape)
    as (_ & _ & _ & Hno_class).
  exact (Hno_class Sample.no_class eq_refl eq_refl eq_refl eq_refl eq_refl
           eq_refl eq_refl).
Defined.

(** C2 as first stated fails: with every class off, no custom characters
    and a length of 3, what [generate] throws is the validation error and
    not the generation error. *)
Lemma generate_no_class_short_throws_validation :
  ¬ Spec.some_class Sample.no_class_short
  ∧ PasswordOptions.customChars Sample.no_class_short = None
  ∧ @generate tape_source (of_options Sample.no_class_short) Sample.tape
      = (Throws ZodError, Sample.tape)
  ∧ ¬ Spec.GenerationError ZodError.
Proof.
  split.
  { intros [Hf|[Hf|[Hf|[Hf|Hf]]]]; discriminate Hf. }
  split; [reflexivity|]. split; [reflexivity|].
  intros [message Hmessage]. discriminate Hmessage.
Qed.

(** C5 at the custom pool of a and b. *)
Lemma generate_customChars_witness :
  ∃ s g',
    @generate tape_source (of_options Sample.custom_ab) Sample.tape
      = (Returns s, g')
    ∧ strlen s = 10
    ∧ ∀ c, c ∈ s → c = 97%N ∨ c = 98%N.
Proof.
  exact (proj2 (generate_customChars (H:=tape_source) Sample.tape)
           Sample.custom_ab eq_refl eq_refl).
Defined.

(** C6 without a custom pool. *)
Lemma generate_excludeSimilar_witness :
  Input.excludeSimilar (of_options Sample.unambiguous) = VBoolean true
  ∧ Input.customChars (of_options Sample.unambiguous) = VUndefined
  ∧ @generate tape_source (of_options Sample.unambiguous) Sample.tape
      = (Returns (lit "abcdTUVW"), drop 8 Sample.tape)
  ∧ ∀ c, c ∈ lit "abcdTUVW" → c ∉ lit "il1Lo0O".
Proof.
  split; [reflexivity|]. split; [reflexivity|]. split; [reflexivity|].
  exact (generate_excludeSimilar (H:=tape_source)
           (of_options Sample.unambiguous) Sample.tape
           (lit "abcdTUVW") (drop 8 Sample.tape)
           eq_refl (or_introl eq_refl) eq_refl).
Defined.

(** C6 as first stated fails: a custom pool is sampled as it stands, so
    with [excludeSimilar] set the result can still hold similar
    characters. *)
Lemma generate_custom_similar_keeps_similar :
  Input.excludeSimilar (of_options Sample.custom_similar) = VBoolean true
  ∧ @generate tape_source (of_options Sample.custom_similar) Sample.tape
      = (Returns (lit "il1L"), drop 4 Sample.tape)
  ∧ ¬ ∀ c, c ∈ lit "il1L" → c ∉ lit "il1Lo0O".
Proof.
  split; [reflexivity|]. split; [reflexivity|].
  intros Hnone. apply (Hnone 105%N); by apply (bool_decide_unpack _).
Qed.

End GeneratorRuns.

(** ** Regular expressions *)

Section RegExpFacts.
Import PasswordGenerator.

(** A search succeeds when the pattern matches at the head of some
    suffix. *)
Lemma test_spec m s :
  RegExp.test m s = true ↔ ∃ pre rest, s = pre ++ rest ∧ m rest = true.
Proof.
  induction s as [|c s IH]; simpl.
  - rewrite orb_false_r. split.
    + intros Hm. by exists [], [].
    + intros (pre & rest & Heq & Hm).
      symmetry in Heq. apply app_eq_nil in Heq as [_ ->]. done.
  - rewrite orb_true_iff, IH. split.
    + intros [Hm|(pre & rest & -> & Hm)].
      * by exists [], (c :: s).
      * by exists (c :: pre), rest.
    + intros ([|c' pre] & rest & Heq & Hm); simpl in Heq.
      * left. by rewrite Heq.
      * right. injection Heq as -> ->. eauto.
Qed.

Lemma test_class member s :
  RegExp.test (RegExp.class member) s = true ↔ ∃ c, c ∈ s ∧ member c = true.
Proof.
  rewrite test_spec. split.
  - intros (pre & [|c rest] & -> & Hm); [done|].
    exists c. split; [|done]. apply elem_of_app. right. by left.
  - intros (c & Hc & Hm). apply list_elem_of_split in Hc as (pre & post & ->).
    by exists pre, (c :: post).
Qed.

(** A check of the 128 units below 128, by computation. *)
Lemma below_128 (P : unit16 → bool) :
  forallb P (N.of_nat <$> seq 0 128) = true → ∀ c, (c < 128)%N → P c = true.
Proof.
  intros Hall c Hc. rewrite forallb_forall in Hall. apply Hall.
  apply list_elem_of_In, list_elem_of_fmap. exists (N.to_nat c).
  split; [lia|]. apply elem_of_seq. lia.
Qed.

(** A range of units below 128 is the set of units of a literal when the
    two agree on the units below 128. *)
Lemma range_literal lo hi (class : jsstring) c :
  (hi < 128)%N →
  Forall (λ c, (c < 128)%N) class →
  forallb (λ c, bool_decide (RegExp.range lo hi c = includes class c))
    (N.of_nat <$> seq 0 128) = true →
  RegExp.range lo hi c = true ↔ c ∈ class.
Proof.
  intros Hhi Hclass Hagree.
  destruct (decide (c < 128)%N) as [Hc|Hc].
  - pose proof (below_128 _ Hagree c Hc) as Heq.
    apply bool_decide_eq_true in Heq. rewrite Heq.
    unfold includes. apply bool_decide_eq_true.
  - split.
    + unfold RegExp.range. rewrite andb_true_iff, !N.leb_le. lia.
    + intros Hin. rewrite Forall_forall in Hclass. apply Hclass in Hin. lia.
Qed.

Lemma lower_spec c : RegExp.lower c = true ↔ c ∈ LOWERCASE.
Proof.
  apply range_literal; [done|by apply (bool_decide_unpack _)|].
  vm_compute. reflexivity.
Qed.

Lemma upper_spec c : RegExp.upper c = true ↔ c ∈ UPPERCASE.
Proof.
  apply range_literal; [done|by apply (bool_decide_unpack _)|].
  vm_compute. reflexivity.
Qed.

Lemma digit_spec c : RegExp.digit c = true ↔ c ∈ NUMBERS.
Proof.
  apply range_literal; [done|by apply (bool_decide_unpack _)|].
  vm_compute. reflexivity.
Qed.

Lemma special_spec c : RegExp.special c = true ↔ c ∈ Spec.punctuation.
Proof.
  unfold RegExp.special, includes. rewrite bool_decide_eq_true.
  by change (lit "!@#$%^&*()_+-=[]{}|;:,.<>?") with Spec.punctuation.
Qed.

Lemma test_has member class s :
  (∀ c, member c = true ↔ c ∈ class) →
  RegExp.test (RegExp.class member) s = true ↔ Spec.has class s.
Proof.
  intros Hmember. rewrite test_class. unfold Spec.has.
  split; intros (c & Hc & Hm); exists c; by rewrite ?Hmember in *.
Qed.

Lemma repeated_spec rest :
  RegExp.repeated rest = true ↔
    ∃ c post, rest = [c; c; c] ++ post ∧ c ∉ [10%N; 13%N; 8232%N; 8233%N].
Proof.
  unfold RegExp.repeated. split.
  - destruct rest as [|c [|d [|e post]]]; try done.
    rewrite !andb_true_iff, negb_true_iff, !N.eqb_eq.
    intros [[Hline ->] ->]. exists c, post. split; [done|].
    unfold RegExp.line_terminator in Hline. by apply includes_false.
  - intros (c & post & -> & Hline). simpl.
    rewrite !andb_true_iff, negb_true_iff, !N.eqb_eq.
    repeat split. by apply includes_false.
Qed.

Lemma test_repeated s :
  RegExp.test RegExp.repeated s = true ↔ Spec.repeats_on_a_line s.
Proof.
  rewrite test_spec. unfold Spec.repeats_on_a_line. split.
  - intros (pre & rest & -> & Hm).
    apply repeated_spec in Hm as (c & post & -> & Hline). eauto.
  - intros (c & pre & post & -> & Hline).
    exists pre, ([c; c; c] ++ post). split; [done|].
    apply repeated_spec. eauto.
Qed.

(** Two units have the same upper-case canonical form exactly when they
    fold to the same lower-case unit. *)
Lemma canonicalize_fold_case c p :
  RegExp.canonicalize c = RegExp.canonicalize p ↔
    Spec.fold_case c = Spec.fold_case p.
Proof.
  unfold RegExp.canonicalize, RegExp.lower, RegExp.range, Spec.fold_case.
  repeat case_bool_decide;
    destruct (97 <=? c)%N eqn:?, (c <=? 122)%N eqn:?,
             (97 <=? p)%N eqn:?, (p <=? 122)%N eqn:?; simpl;
    rewrite ?N.leb_le, ?N.leb_gt in *; lia.
Qed.

Lemma literal_i_spec pat rest :
  RegExp.literal_i pat rest = true ↔
    ∃ w post, rest = w ++ post ∧ Spec.fold_case <$> w = Spec.fold_case <$> pat.
Proof.
  revert rest. induction pat as [|p pat IH]; intros rest; simpl.
  - split; [|done]. intros _. by exists [], rest.
  - destruct rest as [|c rest].
    + split; [done|]. intros ([|c w] & post & Heq & Hw); done.
    + rewrite andb_true_iff, N.eqb_eq, canonicalize_fold_case, IH. split.
      * intros (Hc & w & post & -> & Hw). exists (c :: w), post.
        split; [done|]. csimpl. by rewrite Hc, Hw.
      * intros ([|c' w] & post & Heq & Hw); [done|].
        csimpl in *. injection Heq as -> ->. injection Hw as Hc Hw. eauto.
Qed.

Lemma alt3_spec p1 p2 p3 rest :
  RegExp.alt [p1; p2; p3] rest = true ↔
    p1 rest = true ∨ p2 rest = true ∨ p3 rest = true.
Proof.
  unfold RegExp.alt. simpl. rewrite !orb_true_iff. intuition congruence.
Qed.

Lemma test_sequences s :
  RegExp.test
    (RegExp.alt [RegExp.literal_i (lit "123");
                 RegExp.literal_i (lit "abc");
                 RegExp.literal_i (lit "qwe")]) s = true
  ↔ Spec.common_sequence s.
Proof.
  rewrite test_spec. unfold Spec.common_sequence. split.
  - intros (pre & rest & -> & Hm). apply alt3_spec in Hm.
    rewrite !literal_i_spec in Hm.
    destruct Hm as [Hm|[Hm|Hm]];
      destruct Hm as (w & post & -> & Hw); exists pre, w, post;
      (split; [done|]); rewrite Hw, !elem_of_cons; auto.
  - intros (pre & w & post & -> & Hw).
    exists pre, (w ++ post). split; [done|].
    apply alt3_spec. rewrite !literal_i_spec.
    rewrite !elem_of_cons in Hw.
    destruct Hw as [Hw|[Hw|[Hw|Hw]]];
      [left|right; left|right; right|by apply not_elem_of_nil in Hw];
      by exists w, post.
Qed.

End RegExpFacts.

(** ** Strength scorer *)

Section Scorer.
Import PasswordGenerator.

(** Settles a comparison of the length, one way or the other, where it
    still occurs. *)
Ltac length_case P :=
  first [ rewrite (bool_decide_eq_true_2 P) by lia
        | rewrite (bool_decide_eq_false_2 P) by lia
        | idtac ].

(** The scorer in closed form: a raw sum over the outcomes of its six
    tests, the level read off the raw sum, the score clamped at 0. *)
Lemma calculateStrength_unfold s :
  let lower := RegExp.test (RegExp.class RegExp.lower) s in
  let upper := RegExp.test (RegExp.class RegExp.upper) s in
  let digit := RegExp.test (RegExp.class RegExp.digit) s in
  let special := RegExp.test (RegExp.class RegExp.special) s in
  let repeated := RegExp.test RegExp.repeated s in
  let sequence :=
    RegExp.test
      (RegExp.alt [RegExp.literal_i (lit "123");
                   RegExp.literal_i (lit "abc");
                   RegExp.literal_i (lit "qwe")]) s in
  let raw :=
    Spec.raw_score (strlen s) lower upper digit special repeated sequence in
  calculateStrength s =
    {| score := Z.max 0 raw;
       level := Spec.level_of_score raw;
       feedback :=
         Spec.hints (strlen s) lower upper digit special repeated sequence |}.
Proof.
  intros lower upper digit special repeated sequence raw.
  unfold calculateStrength.
  fold lower upper digit special repeated sequence.
  subst raw. generalize (strlen s) as n. intros n.
  clearbody lower upper digit special repeated sequence.
  unfold Spec.raw_score, Spec.hints, Spec.length_points, Spec.length_hint.
  assert (12 ≤ n ∨ 8 ≤ n < 12 ∨ 6 ≤ n < 8 ∨ n < 6) as [Hn|[Hn|[Hn|Hn]]] by lia;
    length_case (12 ≤ n); length_case (8 ≤ n); length_case (6 ≤ n);
    destruct lower, upper, digit, special, repeated, sequence; reflexivity.
Qed.

Lemma raw_score_max n lower upper digit special repeated sequence :
  Spec.raw_score n lower upper digit special repeated sequence ≤ 90.
Proof.
  unfold Spec.raw_score, Spec.length_points, Spec.points.
  assert (Spec.length_points n ≤ 25) as Hlen.
  { unfold Spec.length_points. repeat case_bool_decide; lia. }
  unfold Spec.length_points in Hlen.
  destruct lower, upper, digit, special, repeated, sequence; lia.
Qed.

(** No threshold lies at or below 0: clamping does not change the level. *)
Lemma level_of_score_clamped raw :
  Spec.level_of_score (Z.max 0 raw) = Spec.level_of_score raw.
Proof. unfold Spec.level_of_score. repeat case_bool_decide; (done || lia). Qed.

(** The rules of the scorer, with the repetition rule as the code has it. *)
Lemma scorer_follows_rules s :
  Spec.scored_as Spec.repeats_on_a_line s (calculateStrength s).
Proof.
  rewrite calculateStrength_unfold. unfold Spec.scored_as.
  exists (RegExp.test (RegExp.class RegExp.lower) s),
         (RegExp.test (RegExp.class RegExp.upper) s),
         (RegExp.test (RegExp.class RegExp.digit) s),
         (RegExp.test (RegExp.class RegExp.special) s),
         (RegExp.test RegExp.repeated s),
         (RegExp.test
            (RegExp.alt [RegExp.literal_i (lit "123");
                         RegExp.literal_i (lit "abc");
                         RegExp.literal_i (lit "qwe")]) s).
  split; [apply test_has, lower_spec|].
  split; [apply test_has, upper_spec|].
  split; [apply test_has, digit_spec|].
  split; [apply test_has, special_spec|].
  split; [apply test_repeated|].
  split; [apply test_sequences|].
  done.
Qed.

(** Where no line terminator comes three times in a row, the repetition
    test of the code is the plain one. *)
Lemma repeats_outside_terminator_runs s :
  ¬ Spec.terminator_run s →
  Spec.repeats_on_a_line s ↔ Spec.repeats s.
Proof.
  intros Hno. split.
  - intros (c & pre & post & -> & _). by exists c, pre, post.
  - intros (c & pre & post & ->). exists c, pre, post. split; [done|].
    intros Hc. apply Hno. by exists c, pre, post.
Qed.

Lemma no_terminator_no_run s :
  Forall (λ c, c ∉ [10%N; 13%N; 8232%N; 8233%N]) s →
  ¬ Spec.terminator_run s.
Proof.
  intros Hclean (c & pre & post & -> & Hc).
  rewrite Forall_forall in Hclean. apply (Hclean c); [|done].
  rewrite !elem_of_app. right. left. by left.
Qed.

(** C3, amended: on a string in which no line terminator comes three
    times in a row, the score is, clamped below at 0, the sum of the
    length term (25 from 12 units on, 15 from 8, 10 from 6, else 0 with
    the length hint), of 15 for each of a lowercase letter, an uppercase
    letter and a digit and of 20 for a punctuation symbol of the core or
    extended set (with the hint of each absent class), less 10 when a
    unit occurs three times in a row and less 15 when the password
    contains, whatever the case, one of the sequences 123, abc, qwe.  The
    password Aa1!Aa1!Aa1! scores 90, Very Strong. *)
Theorem calculateStrength_score s :
  ¬ Spec.terminator_run s →
  Spec.scored_as Spec.repeats s (calculateStrength s)
  ∧ calculateStrength (lit "Aa1!Aa1!Aa1!")
    = {| score := 90; level := VeryStrong; feedback := [] |}
  ∧ Level_label VeryStrong = "Very Strong"%string.
Proof.
  intros Hno. split; [|split; reflexivity].
  destruct (scorer_follows_rules s)
    as (lower & upper & digit & special & repeated & sequence
        & Hlo & Hup & Hdi & Hsp & Hrep & Hseq & Hscore & Hfeedback).
  exists lower, upper, digit, special, repeated, sequence.
  rewrite (repeats_outside_terminator_runs s Hno) in Hrep. done.
Qed.

Lemma calculateStrength_score_witness :
  ¬ Spec.terminator_run (lit "Aa1!Aa1!Aa1!")
  ∧ Spec.scored_as Spec.repeats (lit "Aa1!Aa1!Aa1!")
      (calculateStrength (lit "Aa1!Aa1!Aa1!"))
  ∧ calculateStrength (lit "Aa1!Aa1!Aa1!")
    = {| score := 90; level := VeryStrong; feedback := [] |}
  ∧ Level_label VeryStrong = "Very Strong"%string.
Proof.
  assert (¬ Spec.terminator_run (lit "Aa1!Aa1!Aa1!")) as Hno.
  { apply no_terminator_no_run, (bool_decide_unpack _). vm_compute. exact I. }
  split; [exact Hno|].
  exact (calculateStrength_score (lit "Aa1!Aa1!Aa1!") Hno).
Defined.

(** C3 as first stated fails: three spaces earn nothing and lose 10 for
    the repetition, a sum of -10, and the score returned is 0. *)
Lemma calculateStrength_clamps_negative_sum :
  ¬ Spec.terminator_run Sample.three_spaces
  ∧ score (calculateStrength Sample.three_spaces) = 0
  ∧ ¬ Spec.summed_as Spec.repeats Sample.three_spaces
        (calculateStrength Sample.three_spaces).
Proof.
  split.
  { apply no_terminator_no_run, (bool_decide_unpack _). vm_compute. exact I. }
  split; [reflexivity|].
  intros (lower & upper & digit & special & repeated & sequence
          & _ & _ & _ & _ & Hrep & _ & Hscore & _).
  assert (Spec.repeats Sample.three_spaces) as Hrepeats
    by (by exists 32%N, [], []).
  apply Hrep in Hrepeats as ->.
  destruct lower, upper, digit, special, sequence;
    vm_compute in Hscore; discriminate Hscore.
Qed.

(** The repetition test of the code misses a run of line terminators:
    its pattern is written with a dot, which matches no line terminator
    unless the pattern carries the flag for it.  Four line feeds in a
    row are a unit repeated three times, yet the score stands at 90. *)
Lemma calculateStrength_line_feeds_not_penalised :
  Spec.repeats Sample.four_line_feeds
  ∧ score (calculateStrength Sample.four_line_feeds) = 90
  ∧ ¬ Spec.scored_as Spec.repeats Sample.four_line_feeds
        (calculateStrength Sample.four_line_feeds).
Proof.
  assert (Spec.repeats Sample.four_line_feeds) as Hrepeats.
  { by exists 10%N, (lit "Aa1!Aa1!"), [10%N]. }
  split; [done|]. split; [reflexivity|].
  intros (lower & upper & digit & special & repeated & sequence
          & _ & _ & _ & _ & Hrep & _ & Hscore & _).
  apply Hrep in Hrepeats as ->.
  destruct lower, upper, digit, special, sequence;
    vm_compute in Hscore; discriminate Hscore.
Qed.

(** C4: the level is the one the thresholds give on the returned,
    clamped score: from 90 Very Strong, from 75 Strong, from 60 Good,
    from 40 Fair, from 20 Weak, else Very Weak. *)
Theorem calculateStrength_level s :
  level (calculateStrength s)
  = Spec.level_of_score (score (calculateStrength s))
  ∧ Level_label <$> [VeryStrong; Strong; Good; Fair; Weak; VeryWeak]
    = ["Very Strong"; "Strong"; "Good"; "Fair"; "Weak"; "Very Weak"]%string.
Proof.
  split; [|reflexivity].
  rewrite calculateStrength_unfold. simpl.
  by rewrite level_of_score_clamped.
Qed.

(** C8: the scorer returns a result for every string; its score is an
    integer between 0 and 90; on the empty string the score is 0, the
    level Very Weak, and the feedback has the length hint and the four
    hints that ask for a class. *)
Theorem calculateStrength_total_bounded s :
  (∃ r, calculateStrength s = r ∧ 0 ≤ score r ≤ 90)
  ∧ calculateStrength []
    = {| score := 0;
         level := VeryWeak;
         feedback :=
           ["Password should be at least 8 characters long";
            "Add lowercase letters"; "Add uppercase letters";
            "Add numbers"; "Add special characters"]%string |}
  ∧ Level_label VeryWeak = "Very Weak"%string.
Proof.
  split; [|split; reflexivity].
  exists (calculateStrength s). split; [done|].
  rewrite calculateStrength_unfold. simpl.
  match goal with
  | |- context [Spec.raw_score ?n ?a ?b ?c ?d ?e ?f] =>
      pose proof (raw_score_max n a b c d e f)
  end.
  lia.
Qed.

End Scorer.

(** ** History *)

Section HistoryFacts.

Lemma slice_prefix {A} (a : list A) (n : Z) :
  0 ≤ n → slice a 0 n = take (Z.to_nat n) a.
Proof.
  intros Hn. unfold slice.
  rewrite !bool_decide_eq_false_2 by lia.
  replace (Z.to_nat (0 `min` Z.of_nat (length a))) with 0%nat by lia.
  rewrite drop_0.
  destruct (decide (n ≤ Z.of_nat (length a))) as [Hle|Hgt].
  - f_equal. lia.
  - rewrite !take_ge by lia. done.
Qed.

(** C9: whatever the file held, [saveToHistory] writes a history that
    starts with the entry just saved, followed by the entries it found,
    newest first, cut so that at most 100 entries are kept: the oldest
    beyond the cap are dropped. *)
Theorem saveToHistory_newest_first_capped uuid now password options disk :
  let entry :=
    {| History.id := uuid;
       History.password := password;
       History.options :=
         {| History.length := PasswordOptions.length options;
            History.includeUppercase := PasswordOptions.includeUppercase options;
            History.includeLowercase := PasswordOptions.includeLowercase options;
            History.includeNumbers := PasswordOptions.includeNumbers options;
            History.includeSymbols := PasswordOptions.includeSymbols options;
            History.includeExtraSymbols :=
              PasswordOptions.includeExtraSymbols options |};
       History.createdAt := now |} in
  ∃ written,
    History.saveToHistory uuid now password options disk = History.Stored written
    ∧ written = entry :: take 99 (History.loadHistory disk)
    ∧ head written = Some entry
    ∧ length written = (S (length (History.loadHistory disk)) `min` 100)%nat
    ∧ (length written ≤ 100)%nat
    ∧ History.loadHistory (History.saveToHistory uuid now password options disk) = written.
Proof.
  intros entry. exists (entry :: take 99 (History.loadHistory disk)).
  assert (History.saveToHistory uuid now password options disk
          = History.Stored (entry :: take 99 (History.loadHistory disk))) as Hsave.
  { unfold History.saveToHistory. fold entry. by rewrite slice_prefix. }
  rewrite Hsave. repeat split.
  - simpl. rewrite length_take. lia.
  - simpl. rewrite length_take. lia.
Qed.

Lemma repeat_unit (c : unit16) (count : Z) :
  JS.repeat [c] count = replicate (Z.to_nat count) c.
Proof.
  unfold JS.repeat. induction (Z.to_nat count) as [|n IH]; [done|].
  simpl. by rewrite IH.
Qed.

Lemma substring_prefix (s : jsstring) (n : Z) :
  0 ≤ n ≤ strlen s → substring s 0 n = take (Z.to_nat n) s.
Proof.
  intros Hn. unfold substring.
  replace (Z.min (Z.max 0 0) (strlen s)) with 0 by lia.
  replace (Z.min (Z.max 0 n) (strlen s)) with n by lia.
  replace (Z.min 0 n) with 0 by lia. replace (Z.max 0 n) with n by lia.
  by rewrite Z.sub_0_r, drop_0.
Qed.

Lemma substring_suffix (s : jsstring) (n : Z) :
  0 ≤ n ≤ strlen s → substring_from s n = drop (Z.to_nat n) s.
Proof.
  intros Hn. unfold substring_from, substring.
  replace (Z.min (Z.max 0 n) (strlen s)) with n by lia.
  replace (Z.min (Z.max 0 (strlen s)) (strlen s)) with (strlen s)
    by (unfold strlen; lia).
  replace (Z.min n (strlen s)) with n by lia.
  replace (Z.max n (strlen s)) with (strlen s) by lia.
  apply take_ge. rewrite length_drop. unfold strlen. lia.
Qed.

(** Past four units the mask is the first two units, bullets, the last
    two units. *)
Lemma maskPassword_long password :
  4 < strlen password →
  History.maskPassword password =
    take 2 password
    ++ replicate (length password - 4) 8226%N
    ++ drop (length password - 2) password.
Proof.
  intros Hlen. unfold History.maskPassword, History.bullet.
  rewrite bool_decide_eq_false_2 by lia.
  rewrite substring_prefix, substring_suffix, repeat_unit by lia.
  unfold strlen.
  replace (Z.to_nat (Z.of_nat (length password) - 4))
    with (length password - 4)%nat by lia.
  replace (Z.to_nat (Z.of_nat (length password) - 2))
    with (length password - 2)%nat by lia.
  done.
Qed.

(** C10: a password of at most four units is shown as four bullets; a
    longer one keeps its length, shows its first two and its last two
    units, and has a bullet in every place in between. *)
Theorem maskPassword_reveals_ends password :
  (strlen password ≤ 4 →
     History.maskPassword password = replicate 4 8226%N)
  ∧ (4 < strlen password →
     length (History.maskPassword password) = length password
     ∧ ∀ i : nat,
         History.maskPassword password !! i =
           if decide (i < 2 ∨ length password - 2 ≤ i)%nat
           then password !! i
           else Some 8226%N).
Proof.
  split.
  - intros Hshort. unfold History.maskPassword.
    by rewrite bool_decide_eq_true_2.
  - intros Hlong. rewrite (maskPassword_long password Hlong).
    assert (4 < length password)%nat as Hlen by (unfold strlen in Hlong; lia).
    assert (length (take 2 password) = 2%nat) as Hstart
      by (rewrite length_take; lia).
    split.
    { rewrite !length_app, Hstart, length_replicate, length_drop. lia. }
    intros i. destruct (decide (i < 2 ∨ length password - 2 ≤ i)%nat)
      as [[Hi|Hi]|Hi].
    + rewrite lookup_app_l by lia. by apply lookup_take_lt.
    + rewrite lookup_app_r by lia.
      rewrite lookup_app_r by (rewrite length_replicate; lia).
      rewrite lookup_drop, Hstart, length_replicate. f_equal. lia.
    + rewrite lookup_app_r by lia.
      rewrite lookup_app_l by (rewrite length_replicate; lia).
      apply lookup_replicate_2. lia.
Qed.

(** C10 on a password of seven units and on one of three. *)
Lemma maskPassword_reveals_ends_witness :
  History.maskPassword (lit "abc") = replicate 4 8226%N
  ∧ length (History.maskPassword (lit "abcdefg")) = length (lit "abcdefg")
  ∧ ∀ i : nat,
      History.maskPassword (lit "abcdefg") !! i =
        if decide (i < 2 ∨ length (lit "abcdefg") - 2 ≤ i)%nat
        then lit "abcdefg" !! i
        else Some 8226%N.
Proof.
  split.
  - apply (maskPassword_reveals_ends (lit "abc")). vm_compute. discriminate.
  - apply (maskPassword_reveals_ends (lit "abcdefg")). reflexivity.
Defined.

End HistoryFacts.

(** ** Worked examples *)

Section Examples.
Import PasswordGenerator.

Example buildCharset_defaults :
  buildCharset Sample.defaults
  = lit "abcdefghijklmnopqrstuvwxyzABCDEFGHIJKLMNOPQRSTUVWXYZ0123456789!@#$%^&*".
Proof. reflexivity. Qed.

Example buildCharset_unambiguous :
  buildCharset Sample.unambiguous
  = lit "abcdefghjkmnpqrstuvwxyzABCDEFGHIJKMNPQRSTUVWXYZ23456789".
Proof. reflexivity. Qed.

(** What is left of the extended punctuation once the ambiguous
    characters are out. *)
Example buildCharset_extra_without_ambiguous :
  buildCharset
    (PasswordOptions.mk 12 false false false false true false true None None)
  = lit "_+-=|:?".
Proof. reflexivity. Qed.

Example generate_defaults_on_tape :
  @generate tape_source (of_options Sample.defaults) Sample.tape
  = (Returns (lit "abcdOPQRhijk"), [11]).
Proof. reflexivity. Qed.

(** A length outside the bounds is rejected, not clamped. *)
Example generate_length_200 :
  @generate tape_source
    (of_options
       (PasswordOptions.mk 200 true true true true false false false None None))
    Sample.tape
  = (Throws ZodError, Sample.tape).
Proof. reflexivity. Qed.

Example calculateStrength_eight_a :
  calculateStrength (lit "aaaaaaaa")
  = {| score := 20;
       level := Weak;
       feedback :=
         ["Add uppercase letters"; "Add numbers"; "Add special characters";
          "Avoid repeating characters"]%string |}.
Proof. reflexivity. Qed.

(** The raw sum is negative here, the score is not. *)
Example calculateStrength_three_spaces :
  score (calculateStrength (lit "   ")) = 0.
Proof. reflexivity. Qed.

Example calculateStrength_mixed_case_sequence :
  score (calculateStrength (lit "xxQwExx")) = 25.
Proof. reflexivity. Qed.

Example maskPassword_seven :
  History.maskPassword (lit "abcdefg")
  = lit "ab" ++ [8226; 8226; 8226]%N ++ lit "fg".
Proof. reflexivity. Qed.

Example maskPassword_empty :
  History.maskPassword [] = [8226; 8226; 8226; 8226]%N.
Proof. reflexivity. Qed.

Example saveToHistory_first_entry :
  History.loadHistory
    (History.saveToHistory (lit "id-1") (lit "2025-01-01T00:00:00.000Z")
       (lit "abcdOPQRhijk") Sample.defaults History.Missing)
  = [History.mkEntry (lit "id-1") (lit "abcdOPQRhijk")
       (History.mkEntryOptions 12 true true true true false)
       (lit "2025-01-01T00:00:00.000Z")].
Proof. reflexivity. Qed.

End Examples.

(** * Further properties *)

(** ** The sampler, draw by draw *)

Section SamplerDraws.
Context `{SecureRandom}.
Import PasswordGenerator.

Lemma crypto_randomInt_draw n g :
  0 < n → crypto_randomInt 0 n g = (Returns (draw 0 n g).1, (draw 0 n g).2).
Proof.
  intros Hn. unfold crypto_randomInt.
  rewrite bool_decide_eq_false_2 by lia. by destruct (draw 0 n g).
Qed.

(** The loop writes, slot after slot, what the charset holds at the index
    drawn. *)
Lemma fill_draws charset remaining :
  charset ≠ [] →
  ∀ (slots : list (option N)) g,
    fill charset remaining (length slots)
      (slots ++ replicate remaining None) g
    = (Returns
         (slots ++
          ((λ i, charset !! Z.to_nat i) <$>
             (Sampling.draw_indices (strlen charset) remaining g).1)),
       (Sampling.draw_indices (strlen charset) remaining g).2).
Proof.
  intros Hne. induction remaining as [|remaining IH]; intros slots g.
  - simpl. by rewrite !app_nil_r.
  - cbn [fill Sampling.draw_indices].
    rewrite (bind_returns _ _ _ _ _
               (crypto_randomInt_draw _ g (strlen_pos _ Hne))).
    cbv beta. destruct (draw 0 (strlen charset) g) as [i g1]. cbn [fst snd].
    assert (<[length slots := charset !! Z.to_nat i]>
              (slots ++ replicate (S remaining) None)
            = (slots ++ [charset !! Z.to_nat i]) ++ replicate remaining None)
      as ->.
    { rewrite insert_app_r_alt by lia. rewrite Nat.sub_diag. simpl.
      by rewrite <- (assoc_L (++)). }
    assert (S (length slots) = length (slots ++ [charset !! Z.to_nat i]))
      as -> by (rewrite length_app; simpl; lia).
    rewrite IH.
    destruct (Sampling.draw_indices (strlen charset) remaining g1)
      as [rest g2].
    simpl. by rewrite <- (assoc_L (++)).
Qed.

Lemma draw_indices_length n count g :
  length (Sampling.draw_indices n count g).1 = count.
Proof.
  revert g. induction count as [|count IH]; intros g; [done|].
  simpl. destruct (draw 0 n g) as [i g1]. specialize (IH g1).
  destruct (Sampling.draw_indices n count g1). simpl in *. by rewrite IH.
Qed.

Lemma draw_indices_range n count g :
  0 < n → Forall (λ i, 0 ≤ i < n) (Sampling.draw_indices n count g).1.
Proof.
  intros Hn. revert g. induction count as [|count IH]; intros g; [done|].
  simpl. pose proof (draw_range 0 n g Hn) as Hi.
  destruct (draw 0 n g) as [i g1]. specialize (IH g1).
  destruct (Sampling.draw_indices n count g1). simpl in *. by constructor.
Qed.

Lemma join_lookups (charset : jsstring) (indices : list Z) :
  Forall (λ i, 0 ≤ i < strlen charset) indices →
  Some <$> join ((λ i, charset !! Z.to_nat i) <$> indices)
  = (λ i, charset !! Z.to_nat i) <$> indices.
Proof.
  induction 1 as [|i rest Hi _ IH]; [done|].
  destruct (lookup_lt_is_Some_2 charset (Z.to_nat i)) as [c Hc].
  { unfold strlen in Hi. lia. }
  unfold join in *. csimpl. rewrite Hc. csimpl. by rewrite IH.
Qed.

(** X1: for a length the schema lets through, or a shorter one, the
    sampler is determined by the charset and the indices drawn. *)
Theorem generateSecurePassword_by_indices charset length g :
  charset ≠ [] → 0 ≤ length ≤ 128 →
  let drawn := Sampling.draw_indices (strlen charset) (Z.to_nat length) g in
  ∃ s,
    generateSecurePassword charset length g = (Returns s, drawn.2)
    ∧ Datatypes.length drawn.1 = Z.to_nat length
    ∧ Forall (λ i, 0 ≤ i < strlen charset) drawn.1
    ∧ Some <$> s = (λ i, charset !! Z.to_nat i) <$> drawn.1.
Proof.
  intros Hne Hlen drawn. unfold generateSecurePassword.
  rewrite bool_decide_eq_false_2 by lia.
  pose proof (fill_draws charset (Z.to_nat length) Hne [] g) as Hfill.
  simpl in Hfill. fold drawn in Hfill.
  rewrite (bind_returns _ _ _ _ _ Hfill). cbv beta.
  pose proof (draw_indices_range (strlen charset) (Z.to_nat length) g
                (strlen_pos _ Hne)) as Hrange.
  fold drawn in Hrange.
  exists (join ((λ i, charset !! Z.to_nat i) <$> drawn.1)).
  split; [done|]. split; [apply draw_indices_length|]. split; [done|].
  by apply join_lookups.
Qed.

End SamplerDraws.

(** ** The charset and the generator, further *)

Section CharsetMore.
Import PasswordGenerator.

(** Settles a decidable statement about constants by evaluation. *)
Ltac by_evaluation := apply (bool_decide_unpack _); vm_compute; exact I.

Lemma enabled_classes_sublist o :
  mjoin (Spec.enabled_classes o)
    `sublist_of` LOWERCASE ++ UPPERCASE ++ NUMBERS ++ SYMBOLS ++ EXTRA_SYMBOLS.
Proof.
  unfold Spec.enabled_classes. rewrite !join_app.
  repeat apply sublist_app;
    match goal with
    | |- context [if ?flag then _ else _] => destruct flag
    end; simpl; rewrite ?app_nil_r; (done || apply sublist_nil_l).
Qed.

Lemma buildCharset_sublist_enabled o :
  buildCharset o `sublist_of` mjoin (Spec.enabled_classes o).
Proof.
  rewrite buildCharset_unfold.
  destruct (PasswordOptions.excludeAmbiguous o),
           (PasswordOptions.excludeSimilar o); unfold id;
    repeat (etrans; [apply without_sublist|]); done.
Qed.

(** X2: whatever the flags, no unit occurs twice in the pool: the classes
    are disjoint and the filters only remove. *)
Theorem buildCharset_NoDup o : NoDup (buildCharset o).
Proof.
  eapply sublist_NoDup; [|etrans;
    [apply buildCharset_sublist_enabled|apply enabled_classes_sublist]].
  by_evaluation.
Qed.

Lemma elem_of_enabled_classes o c :
  c ∈ mjoin (Spec.enabled_classes o) ↔
    (PasswordOptions.includeLowercase o = true ∧ c ∈ LOWERCASE)
    ∨ (PasswordOptions.includeUppercase o = true ∧ c ∈ UPPERCASE)
    ∨ (PasswordOptions.includeNumbers o = true ∧ c ∈ NUMBERS)
    ∨ (PasswordOptions.includeSymbols o = true ∧ c ∈ SYMBOLS)
    ∨ (PasswordOptions.includeExtraSymbols o = true ∧ c ∈ EXTRA_SYMBOLS).
Proof.
  unfold Spec.enabled_classes. rewrite !join_app, !elem_of_app.
  assert (∀ (flag : bool) (cls : list N),
            c ∈ mjoin (if flag then [cls] else []) ↔ flag = true ∧ c ∈ cls)
    as Hone.
  { intros [] cls; simpl; rewrite ?app_nil_r.
    - tauto.
    - split; [by intros ?%not_elem_of_nil|by intros [? _]]. }
  by rewrite !Hone.
Qed.

Lemma not_in_both (X Y : list N) c :
  Forall (λ c, c ∉ Y) X → c ∈ X → c ∈ Y → False.
Proof. rewrite Forall_forall. intros Hall Hx Hy. by apply (Hall c Hx). Qed.

(** Two memberships of one unit in two different classes cannot both
    hold. *)
Ltac class_clash :=
  match goal with
  | Hx : ?c ∈ ?X, Hy : ?c ∈ ?Y |- _ =>
      exact (False_ind _
               (not_in_both X Y c ltac:(by_evaluation) Hx Hy))
  end.

(** A unit of a class is in the enabled classes only if its own class is
    enabled: no unit belongs to two classes. *)
Lemma enabled_class_of o c :
  c ∈ mjoin (Spec.enabled_classes o) →
  (c ∈ LOWERCASE → PasswordOptions.includeLowercase o = true)
  ∧ (c ∈ UPPERCASE → PasswordOptions.includeUppercase o = true)
  ∧ (c ∈ NUMBERS → PasswordOptions.includeNumbers o = true)
  ∧ (c ∈ SYMBOLS → PasswordOptions.includeSymbols o = true)
  ∧ (c ∈ EXTRA_SYMBOLS → PasswordOptions.includeExtraSymbols o = true).
Proof.
  intros Hc. apply elem_of_enabled_classes in Hc.
  repeat split; intros Hcls;
    destruct Hc as [[Hf Hc]|[[Hf Hc]|[[Hf Hc]|[[Hf Hc]|[Hf Hc]]]]];
    first [exact Hf|class_clash].
Qed.

End CharsetMore.

Section GeneratorMore.
Context `{SecureRandom}.
Import PasswordGenerator.

(** Without a non-empty custom string the pool is the built charset. *)
Lemma resolved_pool_built o v :
  Input.customChars o = VUndefined ∨ Input.customChars o = VString [] →
  PasswordOptionsSchema_parse o = Returns v →
  Spec.resolved_pool v = buildCharset v.
Proof.
  intros Hcustom Hp.
  apply parse_returns in Hp as (_ & _ & _ & _ & _ & _ & _ & _ & Hcc & _).
  unfold Spec.resolved_pool.
  destruct Hcustom as [Hu|Hu]; rewrite Hu in Hcc; simpl in Hcc;
    by injection Hcc as <-.
Qed.

(** What [generate] returns without a custom string comes from the built
    charset of the validated options. *)
Lemma generate_from_built o g s g' :
  Input.customChars o = VUndefined ∨ Input.customChars o = VString [] →
  generate o g = (Returns s, g') →
  ∃ v, PasswordOptionsSchema_parse o = Returns v
       ∧ ∀ c, c ∈ s → c ∈ buildCharset v.
Proof.
  intros Hcustom Hgen.
  destruct (generate_cases o g)
    as [[_ Hg]|[(v & _ & _ & Hg)|(v & s' & g'' & Hp & _ & Hg & _ & Hin)]];
    [congruence..|].
  exists v. split; [done|]. intros c Hc.
  rewrite <- (resolved_pool_built o v Hcustom Hp). apply Hin. congruence.
Qed.

Lemma throw_keeps_entropy o g e g' :
  generate o g = (Throws e, g') → g' = g.
Proof.
  intros Hgen.
  destruct (generate_cases o g)
    as [[_ Hg]|[(v & _ & _ & Hg)|(v & s' & g'' & _ & _ & Hg & _)]];
    congruence.
Qed.

(** X3: when [generate] throws, it has drawn nothing: the entropy source is
    in the state it was in. *)
Theorem generate_throws_before_sampling o g e g' :
  generate o g = (Throws e, g') → g' = g.
Proof. apply throw_keeps_entropy. Qed.

(** X4: with [excludeAmbiguous] and no custom string, nothing returned is
    an ambiguous character. *)
Theorem generate_excludeAmbiguous o g s g' :
  Input.excludeAmbiguous o = VBoolean true →
  Input.customChars o = VUndefined ∨ Input.customChars o = VString [] →
  generate o g = (Returns s, g') →
  ∀ c, c ∈ s → c ∉ AMBIGUOUS_CHARS.
Proof.
  intros Hamb Hcustom Hgen c Hc.
  destruct (generate_from_built o g s g' Hcustom Hgen) as (v & Hp & Hin).
  pose proof (Hin c Hc) as Hpool.
  apply elem_of_buildCharset in Hpool as (_ & _ & Hout). apply Hout.
  apply parse_returns in Hp as (_ & _ & _ & _ & _ & _ & _ & Ham & _).
  rewrite Hamb in Ham. simpl in Ham. by injection Ham as <-.
Qed.

(** X5: without a custom string, a class that is switched off gives no
    character to the result: a unit of a class is returned only if the
    validated options enable that class. *)
Theorem generate_only_enabled_classes o v g s g' :
  Input.customChars o = VUndefined ∨ Input.customChars o = VString [] →
  PasswordOptionsSchema_parse o = Returns v →
  generate o g = (Returns s, g') →
  ∀ c, c ∈ s →
    (c ∈ LOWERCASE → PasswordOptions.includeLowercase v = true)
    ∧ (c ∈ UPPERCASE → PasswordOptions.includeUppercase v = true)
    ∧ (c ∈ NUMBERS → PasswordOptions.includeNumbers v = true)
    ∧ (c ∈ SYMBOLS → PasswordOptions.includeSymbols v = true)
    ∧ (c ∈ EXTRA_SYMBOLS → PasswordOptions.includeExtraSymbols v = true).
Proof.
  intros Hcustom Hp Hgen c Hc.
  destruct (generate_from_built o g s g' Hcustom Hgen) as (v' & Hp' & Hin).
  assert (v' = v) as Hsame by congruence. subst v'.
  apply enabled_class_of.
  pose proof (Hin c Hc) as Hpool.
  by apply elem_of_buildCharset in Hpool as (Hpool & _).
Qed.

Lemma parse_of_options_out_of_bounds p :
  ¬ (4 ≤ PasswordOptions.length p ≤ 128) →
  PasswordOptionsSchema_parse (of_options p) = Throws ZodError.
Proof.
  intros Hout.
  destruct (PasswordOptionsSchema_parse (of_options p)) as [v|e] eqn:Hp.
  - pose proof (parse_length_bounds _ _ Hp).
    pose proof (parse_length_given _ _ (PasswordOptions.length p) Hp eq_refl).
    lia.
  - by rewrite (parse_throws _ _ Hp).
Qed.

(** X6: the [pattern] option is dead: two well-typed options records that
    differ only in their pattern give the same run of [generate]. *)
Theorem generate_pattern_ignored n up lo nu sy ex si am cc pat pat' g :
  generate
    (of_options (PasswordOptions.mk n up lo nu sy ex si am cc pat)) g
  = generate
      (of_options (PasswordOptions.mk n up lo nu sy ex si am cc pat')) g.
Proof.
  set (p := PasswordOptions.mk n up lo nu sy ex si am cc pat).
  set (p' := PasswordOptions.mk n up lo nu sy ex si am cc pat').
  destruct (decide (4 ≤ n ≤ 128)) as [Hn|Hn].
  - rewrite (generate_valid _ _ g (parse_of_options p Hn)).
    rewrite (generate_valid _ _ g (parse_of_options p' Hn)). done.
  - rewrite (generate_invalid _ _ g (parse_of_options_out_of_bounds p Hn)).
    rewrite (generate_invalid _ _ g (parse_of_options_out_of_bounds p' Hn)).
    done.
Qed.

(** X7: an empty [customChars] counts as none: the run is the one of the
    same input without the key. *)
Theorem generate_empty_customChars l up lo nu sy ex si am pat g :
  generate (Input.mk l up lo nu sy ex si am (VString []) pat) g
  = generate (Input.mk l up lo nu sy ex si am VUndefined pat) g.
Proof.
  set (o := Input.mk l up lo nu sy ex si am (VString []) pat).
  set (o' := Input.mk l up lo nu sy ex si am VUndefined pat).
  assert (∀ v, PasswordOptionsSchema_parse o = Returns v →
               ∃ v', PasswordOptionsSchema_parse o' = Returns v'
                     ∧ Spec.resolved_pool v' = Spec.resolved_pool v
                     ∧ PasswordOptions.length v' = PasswordOptions.length v)
    as Hthere.
  { intros v Hv. apply parse_returns in Hv. simpl in Hv.
    destruct v as [n a b c d e f h cc p].
    destruct Hv as (? & ? & ? & ? & ? & ? & ? & ? & [= <-] & ?).
    exists (PasswordOptions.mk n a b c d e f h None p).
    split; [|done]. apply parse_returns. simpl. tauto. }
  assert (∀ v', PasswordOptionsSchema_parse o' = Returns v' →
                ∃ v, PasswordOptionsSchema_parse o = Returns v)
    as Hback.
  { intros v' Hv'. apply parse_returns in Hv'. simpl in Hv'.
    destruct v' as [n a b c d e f h cc p].
    destruct Hv' as (? & ? & ? & ? & ? & ? & ? & ? & [= <-] & ?).
    exists (PasswordOptions.mk n a b c d e f h (Some []) p).
    apply parse_returns. simpl. tauto. }
  destruct (PasswordOptionsSchema_parse o) as [v|e] eqn:Hp.
  - destruct (Hthere v eq_refl) as (v' & Hp' & Hpool & Hlen).
    rewrite (generate_valid o v g Hp), (generate_valid o' v' g Hp').
    by rewrite Hpool, Hlen.
  - destruct (PasswordOptionsSchema_parse o') as [v'|e'] eqn:Hp'.
    { destruct (Hback v' eq_refl) as (v & Hv). congruence. }
    rewrite (generate_invalid o e g Hp), (generate_invalid o' e' g Hp').
    by rewrite (parse_throws o e Hp), (parse_throws o' e' Hp').
Qed.

End GeneratorMore.

(** ** The configuration file *)

Section ConfigFacts.

(** One key of the schema at a time. *)
Ltac next_config_key :=
  match goal with
  | |- context [mbind _ ?m] =>
      let Hm := fresh "Hkey" in
      destruct m eqn:Hm; cbn [mbind outcome_bind]
  end.

Lemma config_parse_returns raw c :
  Config.ConfigSchema_parse raw = Returns c ↔
    Zod.number_int_min_max_default 4 128 12 (Config.Raw.defaultLength raw)
      = Returns (Config.defaultLength c)
    ∧ Zod.boolean_default true (Config.Raw.defaultIncludeUppercase raw)
      = Returns (Config.defaultIncludeUppercase c)
    ∧ Zod.boolean_default true (Config.Raw.defaultIncludeLowercase raw)
      = Returns (Config.defaultIncludeLowercase c)
    ∧ Zod.boolean_default true (Config.Raw.defaultIncludeNumbers raw)
      = Returns (Config.defaultIncludeNumbers c)
    ∧ Zod.boolean_default true (Config.Raw.defaultIncludeSymbols raw)
      = Returns (Config.defaultIncludeSymbols c)
    ∧ Zod.boolean_default true (Config.Raw.autoCopy raw)
      = Returns (Config.autoCopy c)
    ∧ Zod.boolean_default false (Config.Raw.saveHistory raw)
      = Returns (Config.saveHistory c)
    ∧ Zod.number_int_min_max_default 0 1000 100 (Config.Raw.historyLimit raw)
      = Returns (Config.historyLimit c).
Proof.
  unfold Config.ConfigSchema_parse. destruct c; simpl.
  repeat (next_config_key; [|intuition congruence]).
  unfold mret, outcome_ret. intuition congruence.
Qed.

Lemma config_parse_throws raw e :
  Config.ConfigSchema_parse raw = Throws e → e = ZodError.
Proof.
  unfold Config.ConfigSchema_parse.
  repeat (next_config_key;
          [|intros [= <-]; eauto using number_throws, boolean_throws]).
  discriminate.
Qed.

(** The bounds the schema puts on the two numbers. *)
Lemma config_parse_bounds raw c :
  Config.ConfigSchema_parse raw = Returns c →
  4 ≤ Config.defaultLength c ≤ 128 ∧ 0 ≤ Config.historyLimit c ≤ 1000.
Proof.
  intros Hc. apply config_parse_returns in Hc
    as (Hlen & _ & _ & _ & _ & _ & _ & Hlimit).
  apply number_returns in Hlen as [[_ ->]|[_ ?]];
    apply number_returns in Hlimit as [[_ ->]|[_ ?]]; lia.
Qed.

(** A configuration within the bounds is read back as it was written. *)
Lemma config_parse_to_raw c :
  4 ≤ Config.defaultLength c ≤ 128 → 0 ≤ Config.historyLimit c ≤ 1000 →
  Config.ConfigSchema_parse (Config.to_raw c) = Returns c.
Proof.
  intros Hlen Hlimit. apply config_parse_returns. destruct c. simpl in *.
  by rewrite !bool_decide_eq_true_2.
Qed.

Lemma loadConfig_returns disk :
  ∃ c, Config.loadConfig disk = Returns c
       ∧ 4 ≤ Config.defaultLength c ≤ 128
       ∧ 0 ≤ Config.historyLimit c ≤ 1000.
Proof.
  destruct disk as [| |raw]; simpl; try (eexists; split; [done|simpl; lia]).
  destruct (Config.ConfigSchema_parse raw) as [c|e] eqn:Hc.
  - exists c. split; [done|]. by apply (config_parse_bounds raw).
  - eexists; split; [done|simpl; lia].
Qed.

(** X8: [loadConfig] never throws and always gives a configuration within
    the bounds of the schema, whatever the file holds; without a file the
    schema accepts, it gives the defaults. *)
Theorem loadConfig_always_valid disk :
  (∃ c, Config.loadConfig disk = Returns c
        ∧ 4 ≤ Config.defaultLength c ≤ 128
        ∧ 0 ≤ Config.historyLimit c ≤ 1000)
  ∧ ((∀ raw, disk = Config.Stored raw →
             ∃ e, Config.ConfigSchema_parse raw = Throws e) →
     Config.loadConfig disk = Returns ConfigSpec.defaults).
Proof.
  split; [apply loadConfig_returns|].
  intros Hbad. destruct disk as [| |raw]; try done. simpl.
  destruct (Hbad raw eq_refl) as [e ->]. done.
Qed.

Lemma boolean_after_spec d old update new :
  Zod.boolean_default d (Config.spread_key (VBoolean old) update) = Returns new
  ↔ ConfigSpec.boolean_after d old update new.
Proof.
  destruct update as [[| |b|n|s| |]|]; simpl; intuition congruence.
Qed.

Lemma number_after_spec lo hi d old update new :
  lo ≤ old ≤ hi →
  Zod.number_int_min_max_default lo hi d
    (Config.spread_key (VNumber (Int old)) update) = Returns new
  ↔ ConfigSpec.number_after lo hi d old update new.
Proof.
  intros Hold. destruct update as [[| |b|[n|]|s| |]|]; simpl;
    try case_bool_decide; intuition congruence.
Qed.

(** Past the bounds of the old configuration, the schema accepts the
    spread exactly when every key of the update can be merged. *)
Lemma parse_spread old update new :
  4 ≤ Config.defaultLength old ≤ 128 → 0 ≤ Config.historyLimit old ≤ 1000 →
  Config.ConfigSchema_parse (Config.spread (Config.to_raw old) update)
    = Returns new
  ↔ ConfigSpec.merged old update new.
Proof.
  intros Hlen Hlimit. rewrite config_parse_returns. unfold ConfigSpec.merged.
  simpl. rewrite !boolean_after_spec, !number_after_spec by done. done.
Qed.

Lemma merged_bounds old update new :
  4 ≤ Config.defaultLength old ≤ 128 → 0 ≤ Config.historyLimit old ≤ 1000 →
  ConfigSpec.merged old update new →
  4 ≤ Config.defaultLength new ≤ 128 ∧ 0 ≤ Config.historyLimit new ≤ 1000.
Proof.
  intros Hlen Hlimit Hm. apply parse_spread in Hm; [|done..].
  by apply config_parse_bounds in Hm.
Qed.

(** What [saveConfig] does, by cases on whether the update can be
    merged. *)
Lemma saveConfig_cases update disk :
  ∃ old, Config.loadConfig disk = Returns old
    ∧ 4 ≤ Config.defaultLength old ≤ 128
    ∧ 0 ≤ Config.historyLimit old ≤ 1000
    ∧ ((∃ new, ConfigSpec.merged old update new
               ∧ Config.saveConfig update disk
                 = (Returns (), Config.Stored (Config.to_raw new))
               ∧ Config.loadConfig (Config.Stored (Config.to_raw new))
                 = Returns new)
       ∨ ((∀ new, ¬ ConfigSpec.merged old update new)
          ∧ Config.saveConfig update disk = (Throws ZodError, disk))).
Proof.
  destruct (loadConfig_returns disk) as (old & Hold & Hlen & Hlimit).
  exists old. split; [done|]. split; [done|]. split; [done|].
  unfold Config.saveConfig. rewrite Hold.
  destruct (Config.ConfigSchema_parse
              (Config.spread (Config.to_raw old) update)) as [new|e] eqn:Hnew.
  - left. exists new. pose proof Hnew as Hm.
    apply parse_spread in Hm; [|done..].
    destruct (merged_bounds old update new Hlen Hlimit Hm).
    split; [done|]. split; [done|]. simpl.
    by rewrite config_parse_to_raw.
  - right. rewrite (config_parse_throws _ _ Hnew). split; [|done].
    intros new Hm. apply parse_spread in Hm; [|done..]. congruence.
Qed.

Lemma boolean_after_functional d old update new1 new2 :
  ConfigSpec.boolean_after d old update new1 →
  ConfigSpec.boolean_after d old update new2 → new1 = new2.
Proof. destruct update as [[| |b|n|s| |]|]; simpl; intuition congruence. Qed.

Lemma number_after_functional lo hi d old update new1 new2 :
  ConfigSpec.number_after lo hi d old update new1 →
  ConfigSpec.number_after lo hi d old update new2 → new1 = new2.
Proof.
  destruct update as [[| |b|[n|]|s| |]|]; simpl; intuition congruence.
Qed.

Lemma boolean_after_again d old update new :
  ConfigSpec.boolean_after d old update new →
  ConfigSpec.boolean_after d new update new.
Proof. destruct update as [[| |b|n|s| |]|]; simpl; intuition congruence. Qed.

Lemma number_after_again lo hi d old update new :
  ConfigSpec.number_after lo hi d old update new →
  ConfigSpec.number_after lo hi d new update new.
Proof.
  destruct update as [[| |b|[n|]|s| |]|]; simpl; intuition congruence.
Qed.

Lemma merged_functional old update new1 new2 :
  ConfigSpec.merged old update new1 → ConfigSpec.merged old update new2 →
  new1 = new2.
Proof.
  destruct new1, new2. unfold ConfigSpec.merged. simpl.
  intros (H1 & H2 & H3 & H4 & H5 & H6 & H7 & H8)
         (G1 & G2 & G3 & G4 & G5 & G6 & G7 & G8).
  f_equal;
    eauto using boolean_after_functional, number_after_functional.
Qed.

Lemma merged_again old update new :
  ConfigSpec.merged old update new → ConfigSpec.merged new update new.
Proof.
  unfold ConfigSpec.merged.
  intros (H1 & H2 & H3 & H4 & H5 & H6 & H7 & H8).
  repeat split; eauto using boolean_after_again, number_after_again.
Qed.

(** X9: [saveConfig] merges the update into the configuration it loads, key
    by key: a key the update lacks keeps the loaded value, a key given as
    [undefined] falls back to the schema's default, a well-typed value
    within the bounds is taken; the file then holds the merged
    configuration and loads as such.  If a key has any other value,
    [saveConfig] throws the [ZodError] and the file is as it was. *)
Theorem saveConfig_merges update disk :
  ∃ old, Config.loadConfig disk = Returns old
    ∧ ((∃ new disk', ConfigSpec.merged old update new
               ∧ Config.saveConfig update disk = (Returns (), disk')
               ∧ Config.loadConfig disk' = Returns new)
       ∨ ((∀ new, ¬ ConfigSpec.merged old update new)
          ∧ Config.saveConfig update disk = (Throws ZodError, disk))).
Proof.
  destruct (saveConfig_cases update disk)
    as (old & Hold & _ & _ & [(new & Hm & Hsave & Hload)|[Hno Hsave]]).
  - exists old. split; [done|]. left. eauto.
  - exists old. split; [done|]. by right.
Qed.

(** X10: saving the same update a second time changes nothing. *)
Theorem saveConfig_idempotent update disk disk' :
  Config.saveConfig update disk = (Returns (), disk') →
  Config.saveConfig update disk' = (Returns (), disk').
Proof.
  intros Hsave.
  destruct (saveConfig_cases update disk)
    as (old & Hold & Hlen & Hlimit & [(new & Hm & Hs & Hload)|[_ Hs]]);
    [|congruence].
  assert (disk' = Config.Stored (Config.to_raw new)) as -> by congruence.
  destruct (saveConfig_cases update (Config.Stored (Config.to_raw new)))
    as (old' & Hold' & _ & _ & [(new' & Hm' & Hs' & _)|[Hno _]]).
  - assert (old' = new) as -> by congruence.
    by rewrite (merged_functional _ _ _ _ Hm' (merged_again _ _ _ Hm)) in Hs'.
  - assert (old' = new) as -> by congruence.
    destruct (Hno new (merged_again _ _ _ Hm)).
Qed.

End ConfigFacts.

(** ** The config command *)

Section ConfigCommandFacts.
Import Builtins.

(** The one-key updates of [setConfigValue]. *)
Lemma updates_for_effect key value update old :
  ConfigCommand.updates_for key value = inr update →
  ∃ new, ConfigSpec.merged old update new
         ∧ ConfigSpec.set_effect key value old new.
Proof.
  unfold ConfigCommand.updates_for, ConfigSpec.set_effect.
  set (lowered := toLowerCase key).
  destruct (bool_decide_reflect
              (lowered = lit "defaultlength" ∨ lowered = lit "length"))
    as [Hlength|_].
  { destruct (parseInt value) as [|n]; [discriminate|].
    destruct (bool_decide_reflect (n < 4 ∨ n > 128)) as [|Hn];
      [discriminate|].
    intros Hu. inversion Hu as [Hupdate]. clear Hu Hupdate.
    exists (ConfigSpec.with_defaultLength n old). split.
    - unfold ConfigSpec.merged. simpl. repeat split; (done || lia).
    - left. split; [done|]. exists n. repeat split; (done || lia). }
  destruct (bool_decide_reflect (lowered = lit "autocopy")) as [Hcopy|_].
  { intros Hu. inversion Hu as [Hupdate]. clear Hu Hupdate.
    eexists. split; [|right; left; done].
    unfold ConfigSpec.merged. by simpl. }
  destruct (bool_decide_reflect (lowered = lit "savehistory")) as [Hsave|_].
  { intros Hu. inversion Hu as [Hupdate]. clear Hu Hupdate.
    eexists. split; [|right; right; left; done].
    unfold ConfigSpec.merged. by simpl. }
  destruct (bool_decide_reflect (lowered = lit "historylimit")) as [Hlimit|_];
    [|discriminate].
  destruct (parseInt value) as [|n]; [discriminate|].
  destruct (bool_decide_reflect (n < 0 ∨ n > 1000)) as [|Hn]; [discriminate|].
  intros Hu. inversion Hu as [Hupdate]. clear Hu Hupdate.
  exists (ConfigSpec.with_historyLimit n old). split.
  - unfold ConfigSpec.merged. simpl. repeat split; (done || lia).
  - right; right; right. split; [done|].
    exists n. repeat split; (done || lia).
Qed.

(** [setConfigValue] by cases. *)
Lemma setConfigValue_cases keyValue disk :
  (∃ error, (∀ k v, error ≠ ConfigCommand.Updated k v)
            ∧ ConfigCommand.setConfigValue keyValue disk
              = (Returns error, disk))
  ∨ (∃ key value old new disk',
       split 61%N keyValue !! 0%nat = Some key
       ∧ split 61%N keyValue !! 1%nat = Some value
       ∧ Config.loadConfig disk = Returns old
       ∧ Config.loadConfig disk' = Returns new
       ∧ ConfigSpec.set_effect key value old new
       ∧ ConfigCommand.setConfigValue keyValue disk
         = (Returns (ConfigCommand.Updated key value), disk')).
Proof.
  unfold ConfigCommand.setConfigValue.
  destruct (split 61%N keyValue !! 0%nat) as [[|k ey]|] eqn:Hkey;
    try (left; by exists ConfigCommand.Invalid_format).
  destruct (split 61%N keyValue !! 1%nat) as [value|] eqn:Hvalue;
    try (left; by exists ConfigCommand.Invalid_format).
  destruct (ConfigCommand.updates_for (k :: ey) value)
    as [error|update] eqn:Hupdate.
  - left. exists error. split; [|done]. intros k' v' ->.
    unfold ConfigCommand.updates_for in Hupdate.
    repeat case_bool_decide; repeat case_match; discriminate.
  - right.
    destruct (saveConfig_cases update disk)
      as (old & Hold & _ & _ & [(new & Hm & Hs & Hload)|[Hno _]]).
    + destruct (updates_for_effect _ _ _ old Hupdate) as (new' & Hm' & Heff).
      rewrite (merged_functional _ _ _ _ Hm' Hm) in Heff.
      exists (k :: ey), value, old, new, (Config.Stored (Config.to_raw new)).
      by rewrite Hs.
    + destruct (updates_for_effect _ _ _ old Hupdate) as (new' & Hm' & _).
      destruct (Hno new' Hm').
Qed.

(** X11: [--set] never fails with an exception: it either reports an error
    and leaves the file alone, or reports the update. *)
Theorem setConfigValue_never_throws keyValue disk :
  ∃ r disk',
    ConfigCommand.setConfigValue keyValue disk = (Returns r, disk')
    ∧ ((∀ k v, r ≠ ConfigCommand.Updated k v) → disk' = disk).
Proof.
  destruct (setConfigValue_cases keyValue disk)
    as [(error & Herror & Hrun)
       |(key & value & old & new & disk' & _ & _ & _ & _ & _ & Hrun)].
  - exists error, disk. by split.
  - exists (ConfigCommand.Updated key value), disk'. split; [done|].
    intros Hno. by destruct (Hno key value).
Qed.

(** X12: when [--set] reports an update, the key and the value are the first
    two pieces of the argument, the key is one of the five names it knows
    (in any case), and the configuration loaded afterwards differs from
    the one loaded before in that one setting. *)
Theorem setConfigValue_updated keyValue disk key value disk' :
  ConfigCommand.setConfigValue keyValue disk
    = (Returns (ConfigCommand.Updated key value), disk') →
  split 61%N keyValue !! 0%nat = Some key
  ∧ split 61%N keyValue !! 1%nat = Some value
  ∧ ∃ old new,
      Config.loadConfig disk = Returns old
      ∧ Config.loadConfig disk' = Returns new
      ∧ ConfigSpec.set_effect key value old new.
Proof.
  intros Hrun.
  destruct (setConfigValue_cases keyValue disk)
    as [(error & Herror & Hrun')
       |(key' & value' & old & new & disk'' & Hk & Hv & Hold & Hnew & He & Hrun')].
  - rewrite Hrun in Hrun'. injection Hrun' as <- _.
    by destruct (Herror key value).
  - rewrite Hrun in Hrun'. injection Hrun' as -> -> ->. eauto 10.
Qed.

(** X13: a confirmed reset leaves the defaults, whatever the file held; a
    declined one leaves the file alone. *)
Theorem resetConfig_restores_defaults disk :
  (∃ disk', ConfigCommand.resetConfig true disk
            = (Returns ConfigCommand.Reset_done, disk')
            ∧ Config.loadConfig disk' = Returns ConfigSpec.defaults)
  ∧ ConfigCommand.resetConfig false disk
    = (Returns ConfigCommand.Cancelled, disk).
Proof.
  split; [|done]. unfold ConfigCommand.resetConfig.
  assert (∀ old, ConfigSpec.merged old ConfigCommand.reset_values
                   ConfigSpec.defaults) as Hreset.
  { intros old. unfold ConfigSpec.merged. simpl. repeat split; lia. }
  destruct (saveConfig_cases ConfigCommand.reset_values disk)
    as (old & _ & _ & _ & [(new & Hm & Hs & Hload)|[Hno _]]).
  - rewrite (merged_functional _ _ _ _ Hm (Hreset old)) in Hs, Hload.
    rewrite Hs. eauto.
  - destruct (Hno _ (Hreset old)).
Qed.

End ConfigCommandFacts.

(** ** The gen command *)

Section GenCommandFacts.
Context `{SecureRandom}.
Import Builtins PasswordGenerator GenCommand.
#[local] Set Warnings "-clear-no-such-hyp".

(** What was shown after a password came out. *)
Lemma generateAndDisplay_returns env options actions disk g s g' :
  generate (of_options options) g = (Returns s, g') →
  ∃ shown,
    generateAndDisplay env options actions disk g
    = (Returns (), shown,
       if do_save actions
       then History.saveToHistory (uuid env) (now env) s options disk
       else disk,
       g')
    ∧ take 3 shown = [Spinner_start; Spinner_stop; Show_password s]
    ∧ (∀ p, Show_password p ∈ shown → p = s)
    ∧ (∀ p, Clipboard_write p ∈ shown ↔
            p = s ∧ do_copy actions = true ∧ clipboard_ok env = true)
    ∧ (Copy_failed ∈ shown ↔
         do_copy actions = true ∧ clipboard_ok env = false)
    ∧ (Saved ∈ shown ↔ do_save actions = true).
Proof.
  intros Hgen. unfold generateAndDisplay. rewrite Hgen.
  destruct actions as [copy save showStrength], env as [ok id time]. simpl.
  destruct showStrength, copy, ok, save;
    try destruct (bool_decide
                    (0 < Datatypes.length (feedback (calculateStrength s)))%nat);
    (eexists; split; [reflexivity|]; split; [reflexivity|];
     repeat split; try (intros p); set_solver).
Qed.

Lemma generateAndDisplay_throws env options actions disk g e g' :
  generate (of_options options) g = (Throws e, g') →
  generateAndDisplay env options actions disk g
  = (Throws e, [Spinner_start], disk, g).
Proof.
  intros Hgen. unfold generateAndDisplay. rewrite Hgen.
  by rewrite (throw_keeps_entropy _ _ _ _ Hgen).
Qed.

Lemma command_length_spec options config :
  4 ≤ Config.defaultLength config ≤ 128 →
  PasswordOptions.length (command_passwordOptions options config)
  = GenSpec.command_length options config.
Proof.
  intros Hdefault. unfold command_passwordOptions, GenSpec.command_length.
  cbn [PasswordOptions.length].
  assert (or_number (Integer (Config.defaultLength config)) 12
          = Config.defaultLength config) as ->.
  { unfold or_number. by rewrite bool_decide_eq_false_2 by lia. }
  unfold or_number. by destruct (parseInt _).
Qed.

Lemma command_length_in_bounds options config :
  4 ≤ Config.defaultLength config ≤ 128 →
  4 ≤ GenSpec.command_length options config ≤ 128 →
  ¬ GenSpec.length_rejected options.
Proof.
  intros Hdefault. unfold GenSpec.command_length, GenSpec.length_rejected.
  destruct (parseInt _) as [|z].
  - intros _ (z & Hz & _). discriminate.
  - case_bool_decide as Hzero.
    + intros _ (z' & [= <-] & Hnz & _). done.
    + intros Hin (z' & [= <-] & _ & Hout). done.
Qed.

Lemma command_length_out_of_bounds options config :
  4 ≤ Config.defaultLength config ≤ 128 →
  ¬ (4 ≤ GenSpec.command_length options config ≤ 128) →
  GenSpec.length_rejected options.
Proof.
  intros Hdefault. unfold GenSpec.command_length, GenSpec.length_rejected.
  destruct (parseInt _) as [|z]; [done|].
  case_bool_decide as Hzero; [done|]. intros Hout. by exists z.
Qed.

(** X14: in command mode the schema can only reject a length the user typed:
    the run throws the validation error exactly when the length option
    reads as a number other than zero outside 4..128, and then it has
    shown no password, saved nothing and drawn nothing. *)
Theorem runCommandMode_length_rejected env options config_disk disk g :
  ((∃ shown disk' g',
      runCommandMode env options config_disk disk g
      = (Throws ZodError, shown, disk', g'))
   ↔ GenSpec.length_rejected options)
  ∧ (GenSpec.length_rejected options →
     runCommandMode env options config_disk disk g
     = (Throws ZodError, [Spinner_start], disk, g)).
Proof.
  destruct (loadConfig_returns config_disk) as (config & Hconfig & Hdl & _).
  unfold runCommandMode. rewrite Hconfig.
  set (actions := mkActions _ _ _).
  set (po := command_passwordOptions options config).
  pose proof (command_length_spec options config Hdl) as Hlen. fold po in Hlen.
  destruct (decide (4 ≤ PasswordOptions.length po ≤ 128)) as [Hin|Hout].
  - assert (¬ GenSpec.length_rejected options) as Hok.
    { apply (command_length_in_bounds options config Hdl). by rewrite <- Hlen. }
    split; [|done]. split; [|done].
    intros (shown & disk' & g' & Hrun). exfalso.
    pose proof (parse_of_options po Hin) as Hparse.
    destruct (generate_cases (of_options po) g)
      as [[Hp _]|[(v & _ & _ & Hg)|(v & s & g'' & _ & _ & Hg & _)]].
    + congruence.
    + rewrite (generateAndDisplay_throws _ _ _ _ _ _ _ Hg) in Hrun.
      discriminate Hrun.
    + destruct (generateAndDisplay_returns env po actions disk g s g'' Hg)
        as (shown' & Hrun' & _).
      rewrite Hrun' in Hrun. discriminate Hrun.
  - assert (GenSpec.length_rejected options) as Hrejected.
    { apply (command_length_out_of_bounds options config Hdl).
      by rewrite <- Hlen. }
    pose proof (generate_invalid _ _ g
                  (parse_of_options_out_of_bounds po Hout)) as Hg.
    rewrite (generateAndDisplay_throws _ _ _ _ _ _ _ Hg).
    split; [|done]. split; [done|]. eauto.
Qed.






(** X26: a cancelled length, character types or exclusion prompt makes the
    interactive mode throw a TypeError once the five prompts are through:
    after the intro nothing is shown, generated, drawn or saved. *)
Theorem runInteractiveMode_cancelled env answers disk g :
  answer_length answers = Prompt.Cancelled
  ∨ charTypes answers = Prompt.Cancelled
  ∨ excludeOptions answers = Prompt.Cancelled →
  runInteractiveMode env answers disk g = (Throws TypeError, [Intro], disk, g).
Proof.
  intros Hcancelled. unfold runInteractiveMode.
  assert (interactive_passwordOptions answers = Throws TypeError) as ->;
    [|done].
  unfold interactive_passwordOptions.
  destruct answers as [[text|] [types|] [excluded|] copy_ save_];
    simpl in *; try done.
  destruct Hcancelled as [?|[?|?]]; discriminate.
Qed.

(** X17: the colour of the strength line goes with the level: green exactly
    for Strong and Very Strong, yellow only for Fair and Good, red only
    below Good. *)
Theorem strengthColor_level s :
  let strength := calculateStrength s in
  (strengthColor strength = green ↔
     level strength = Strong ∨ level strength = VeryStrong)
  ∧ (strengthColor strength = yellow →
     level strength = Fair ∨ level strength = Good)
  ∧ (strengthColor strength = red →
     level strength = VeryWeak ∨ level strength = Weak
     ∨ level strength = Fair)
  ∧ (level strength = Good → strengthColor strength = yellow)
  ∧ (level strength = VeryWeak ∨ level strength = Weak →
     strengthColor strength = red).
Proof.
  intros strength. subst strength. rewrite calculateStrength_unfold.
  unfold strengthColor, Spec.level_of_score. simpl.
  match goal with
  | |- context [Spec.raw_score ?n ?a ?b ?c ?d ?e ?f] =>
      generalize (Spec.raw_score n a b c d e f)
  end.
  intros raw. repeat case_bool_decide; try lia;
    (repeat split; try done; intros; intuition discriminate).
Qed.


End GenCommandFacts.

(** ** The scorer and the history, further *)

Section ScorerMore.
Import PasswordGenerator.

(** On a string without line terminators the repetition test is the plain
    one. *)
Lemma repeats_without_terminators s :
  Forall (λ c, c ∉ [10%N; 13%N; 8232%N; 8233%N]) s →
  Spec.repeats_on_a_line s ↔ Spec.repeats s.
Proof.
  intros Hclean. unfold Spec.repeats_on_a_line, Spec.repeats. split.
  - intros (c & pre & post & -> & _). eauto.
  - intros (c & pre & post & ->). exists c, pre, post. split; [done|].
    rewrite Forall_forall in Hclean. apply Hclean.
    rewrite !elem_of_app. right. left. by left.
Qed.

Lemma scored_without_terminators s :
  Forall (λ c, c ∉ [10%N; 13%N; 8232%N; 8233%N]) s →
  Spec.scored_as Spec.repeats s (calculateStrength s).
Proof.
  intros Hclean.
  destruct (scorer_follows_rules s)
    as (lower & upper & digit & special & repeated & sequence
        & Hlo & Hup & Hdi & Hsp & Hrep & Hseq & Hscore & Hfeedback).
  exists lower, upper, digit, special, repeated, sequence.
  rewrite (repeats_without_terminators s Hclean) in Hrep. done.
Qed.

(** The score is 90 exactly when every rule goes well. *)
Lemma raw_score_90 n lower upper digit special repeated sequence :
  Spec.raw_score n lower upper digit special repeated sequence = 90 ↔
    12 ≤ n ∧ lower = true ∧ upper = true ∧ digit = true ∧ special = true
    ∧ repeated = false ∧ sequence = false.
Proof.
  unfold Spec.raw_score, Spec.length_points, Spec.points.
  destruct lower, upper, digit, special, repeated, sequence;
    repeat case_bool_decide; split; try lia; try done;
    intros (? & ? & ? & ? & ? & ? & ?); (done || lia).
Qed.

(** X19: the level Very Strong is the score 90, and that is reached exactly
    by a string of at least 12 units that has a lowercase letter, an
    uppercase letter, a digit and a punctuation symbol, has no unit other
    than a line terminator three times in a row and none of the common
    sequences; the feedback is then empty. *)
Theorem calculateStrength_very_strong s :
  let strength := calculateStrength s in
  (level strength = VeryStrong ↔ score strength = 90)
  ∧ (score strength = 90 ↔
       12 ≤ strlen s
       ∧ Spec.has LOWERCASE s ∧ Spec.has UPPERCASE s
       ∧ Spec.has NUMBERS s ∧ Spec.has Spec.punctuation s
       ∧ ¬ Spec.repeats_on_a_line s ∧ ¬ Spec.common_sequence s)
  ∧ (score strength = 90 → feedback strength = []).
Proof.
  intros strength. subst strength. rewrite calculateStrength_unfold. simpl.
  set (lower := RegExp.test (RegExp.class RegExp.lower) s).
  set (upper := RegExp.test (RegExp.class RegExp.upper) s).
  set (digit := RegExp.test (RegExp.class RegExp.digit) s).
  set (special := RegExp.test (RegExp.class RegExp.special) s).
  set (repeated := RegExp.test RegExp.repeated s).
  set (sequence := RegExp.test _ s).
  pose proof (raw_score_max (strlen s) lower upper digit special repeated
                sequence) as Hmax.
  pose proof (raw_score_90 (strlen s) lower upper digit special repeated
                sequence) as H90.
  set (raw := Spec.raw_score _ _ _ _ _ _ _) in *.
  assert (0 `max` raw = 90 ↔ raw = 90) as Hclamp by lia.
  split; [|split].
  - rewrite Hclamp. unfold Spec.level_of_score.
    repeat case_bool_decide; split; (done || lia).
  - rewrite Hclamp, H90.
    rewrite <- (test_has _ _ s lower_spec), <- (test_has _ _ s upper_spec),
      <- (test_has _ _ s digit_spec), <- (test_has _ _ s special_spec),
      <- test_repeated, <- test_sequences.
    fold lower upper digit special repeated sequence.
    rewrite !not_true_iff_false. done.
  - rewrite Hclamp, H90. intros (Hn & -> & -> & -> & -> & -> & ->).
    unfold Spec.hints, Spec.length_hint.
    by rewrite bool_decide_eq_true_2 by lia.
Qed.

End ScorerMore.

Section GeneratedScored.
Context `{SecureRandom}.
Import PasswordGenerator.

(** The built charset has no line terminator. *)
Lemma buildCharset_no_terminator v c :
  c ∈ buildCharset v → c ∉ [10%N; 13%N; 8232%N; 8233%N].
Proof.
  intros Hc Hterminator.
  apply elem_of_buildCharset in Hc as (Hc & _).
  pose proof (elem_of_sublist _ _ _ Hc (enabled_classes_sublist v)) as Hall.
  revert Hall Hterminator. apply not_in_both.
  apply (bool_decide_unpack _). vm_compute. exact I.
Qed.

(** X20: a password generated from the character classes is scored by the
    rules as the specification words them: among its units, a repetition
    of three is always penalised. *)
Theorem generated_password_scored o g s g' :
  Input.customChars o = VUndefined ∨ Input.customChars o = VString [] →
  generate o g = (Returns s, g') →
  Spec.scored_as Spec.repeats s (calculateStrength s).
Proof.
  intros Hcustom Hgen.
  destruct (generate_from_built o g s g' Hcustom Hgen) as (v & _ & Hin).
  apply scored_without_terminators, Forall_forall.
  intros c Hc. by eapply buildCharset_no_terminator, Hin.
Qed.

End GeneratedScored.

Section HistoryMore.

Lemma loadHistory_saveToHistory uuid now password options disk :
  History.loadHistory
    (History.saveToHistory uuid now password options disk)
  = take 100
      (HistorySpec.entry_of
         (HistorySpec.mkSaving uuid now password options)
       :: History.loadHistory disk).
Proof. unfold History.saveToHistory. by rewrite slice_prefix. Qed.

Lemma take_app_take {A} (n : nat) (l m : list A) :
  take n (l ++ take n m) = take n (l ++ m).
Proof.
  rewrite !take_app. f_equal. rewrite take_take. f_equal. lia.
Qed.

(** X21: after one save or more the history holds the entries saved, the
    latest first, then the entries it held before, cut at 100. *)
Theorem saveToHistory_many x calls disk :
  History.loadHistory (HistorySpec.save_all (x :: calls) disk)
  = take 100
      (reverse (HistorySpec.entry_of <$> x :: calls)
       ++ History.loadHistory disk).
Proof.
  revert x disk. induction calls as [|y calls IH]; intros x disk.
  - simpl. destruct x. apply loadHistory_saveToHistory.
  - change (HistorySpec.save_all (x :: y :: calls) disk)
      with (HistorySpec.save_all (y :: calls)
              (History.saveToHistory (HistorySpec.saving_uuid x)
                 (HistorySpec.saving_now x) (HistorySpec.saving_password x)
                 (HistorySpec.saving_options x) disk)).
    rewrite IH, loadHistory_saveToHistory, take_app_take.
    destruct x. cbn [HistorySpec.saving_uuid HistorySpec.saving_now
                       HistorySpec.saving_password HistorySpec.saving_options].
    rewrite (fmap_cons HistorySpec.entry_of (HistorySpec.mkSaving _ _ _ _)).
    rewrite (reverse_cons _ (HistorySpec.entry_of (HistorySpec.mkSaving _ _ _ _))).
    by rewrite <- (assoc_L (++)).
Qed.

End HistoryMore.

(** ** Runs that meet the conditions of the theorems above *)

Section MoreRuns.
Import PasswordGenerator.

Lemma generateSecurePassword_by_indices_witness :
  lit "ab" ≠ [] ∧ 0 ≤ 3 ≤ 128
  ∧ ∃ s,
      @generateSecurePassword tape_source (lit "ab") 3 Sample.tape
      = (Returns s,
         (@Sampling.draw_indices tape_source (strlen (lit "ab")) (Z.to_nat 3)
            Sample.tape).2)
      ∧ Datatypes.length
          (@Sampling.draw_indices tape_source (strlen (lit "ab")) (Z.to_nat 3)
             Sample.tape).1 = Z.to_nat 3
      ∧ Forall (λ i, 0 ≤ i < strlen (lit "ab"))
          (@Sampling.draw_indices tape_source (strlen (lit "ab")) (Z.to_nat 3)
             Sample.tape).1
      ∧ Some <$> s
        = (λ i, lit "ab" !! Z.to_nat i)
            <$> (@Sampling.draw_indices tape_source (strlen (lit "ab"))
                   (Z.to_nat 3) Sample.tape).1.
Proof.
  assert (lit "ab" ≠ []) as Hne by discriminate.
  assert (0 ≤ 3 ≤ 128) as Hlen by lia.
  split; [exact Hne|]. split; [exact Hlen|].
  exact (generateSecurePassword_by_indices (H:=tape_source)
           (lit "ab") 3 Sample.tape Hne Hlen).
Defined.

Lemma generate_throws_before_sampling_witness :
  @generate tape_source (of_options Sample.no_class) Sample.tape
    = (Throws Spec.empty_charset_error, Sample.tape)
  ∧ Sample.tape = Sample.tape.
Proof.
  split; [reflexivity|].
  exact (generate_throws_before_sampling (H:=tape_source)
           (of_options Sample.no_class) Sample.tape
           Spec.empty_charset_error Sample.tape eq_refl).
Defined.

Lemma generate_excludeAmbiguous_witness :
  Input.excludeAmbiguous (of_options MoreSamples.plain_punctuation)
    = VBoolean true
  ∧ Input.customChars (of_options MoreSamples.plain_punctuation) = VUndefined
  ∧ @generate tape_source (of_options MoreSamples.plain_punctuation)
      Sample.tape
    = (Returns (lit "_+-="), drop 4 Sample.tape)
  ∧ ∀ c, c ∈ lit "_+-=" → c ∉ AMBIGUOUS_CHARS.
Proof.
  split; [reflexivity|]. split; [reflexivity|]. split; [reflexivity|].
  exact (generate_excludeAmbiguous (H:=tape_source)
           (of_options MoreSamples.plain_punctuation) Sample.tape
           (lit "_+-=") (drop 4 Sample.tape)
           eq_refl (or_introl eq_refl) eq_refl).
Defined.

Lemma generate_only_enabled_classes_witness :
  Input.customChars (of_options Sample.unambiguous) = VUndefined
  ∧ PasswordOptionsSchema_parse (of_options Sample.unambiguous)
    = Returns Sample.unambiguous
  ∧ @generate tape_source (of_options Sample.unambiguous) Sample.tape
    = (Returns (lit "abcdTUVW"), drop 8 Sample.tape)
  ∧ ∀ c, c ∈ lit "abcdTUVW" →
      (c ∈ LOWERCASE →
       PasswordOptions.includeLowercase Sample.unambiguous = true)
      ∧ (c ∈ UPPERCASE →
         PasswordOptions.includeUppercase Sample.unambiguous = true)
      ∧ (c ∈ NUMBERS →
         PasswordOptions.includeNumbers Sample.unambiguous = true)
      ∧ (c ∈ SYMBOLS →
         PasswordOptions.includeSymbols Sample.unambiguous = true)
      ∧ (c ∈ EXTRA_SYMBOLS →
         PasswordOptions.includeExtraSymbols Sample.unambiguous = true).
Proof.
  split; [reflexivity|]. split; [reflexivity|]. split; [reflexivity|].
  exact (generate_only_enabled_classes (H:=tape_source)
           (of_options Sample.unambiguous) Sample.unambiguous Sample.tape
           (lit "abcdTUVW") (drop 8 Sample.tape)
           (or_introl eq_refl) eq_refl eq_refl).
Defined.

Lemma generated_password_scored_witness :
  Input.customChars (of_options Sample.unambiguous) = VUndefined
  ∧ @generate tape_source (of_options Sample.unambiguous) Sample.tape
    = (Returns (lit "abcdTUVW"), drop 8 Sample.tape)
  ∧ Spec.scored_as Spec.repeats (lit "abcdTUVW")
      (calculateStrength (lit "abcdTUVW")).
Proof.
  split; [reflexivity|]. split; [reflexivity|].
  exact (generated_password_scored (H:=tape_source)
           (of_options Sample.unambiguous) Sample.tape
           (lit "abcdTUVW") (drop 8 Sample.tape)
           (or_introl eq_refl) eq_refl).
Defined.

Lemma saveConfig_idempotent_witness :
  Config.saveConfig ConfigSpec.longer_and_saving ConfigSpec.hand_edited
    = (Returns (),
       Config.Stored
         (Config.to_raw (Config.mk 20 true false true true true true 100)))
  ∧ Config.saveConfig ConfigSpec.longer_and_saving
      (Config.Stored
         (Config.to_raw (Config.mk 20 true false true true true true 100)))
    = (Returns (),
       Config.Stored
         (Config.to_raw (Config.mk 20 true false true true true true 100))).
Proof.
  split; [reflexivity|].
  exact (saveConfig_idempotent ConfigSpec.longer_and_saving
           ConfigSpec.hand_edited _ eq_refl).
Defined.

Lemma setConfigValue_updated_witness :
  ConfigCommand.setConfigValue MoreSamples.set_length_16 Config.Missing
    = (Returns (ConfigCommand.Updated (lit "length") (lit "16")),
       Config.Stored
         (Config.to_raw (Config.mk 16 true true true true true false 100)))
  ∧ Builtins.split 61%N MoreSamples.set_length_16 !! 0%nat
    = Some (lit "length")
  ∧ Builtins.split 61%N MoreSamples.set_length_16 !! 1%nat = Some (lit "16")
  ∧ ∃ old new,
      Config.loadConfig Config.Missing = Returns old
      ∧ Config.loadConfig
          (Config.Stored
             (Config.to_raw (Config.mk 16 true true true true true false 100)))
        = Returns new
      ∧ ConfigSpec.set_effect (lit "length") (lit "16") old new.
Proof.
  split; [reflexivity|].
  exact (setConfigValue_updated MoreSamples.set_length_16 Config.Missing
           (lit "length") (lit "16") _ eq_refl).
Defined.





Lemma runInteractiveMode_cancelled_witness :
  (GenCommand.answer_length GenSpec.hex_exclude_cancelled = Prompt.Cancelled
   ∨ GenCommand.charTypes GenSpec.hex_exclude_cancelled = Prompt.Cancelled
   ∨ GenCommand.excludeOptions GenSpec.hex_exclude_cancelled
     = Prompt.Cancelled)
  ∧ @GenCommand.runInteractiveMode tape_source GenSpec.env
      GenSpec.hex_exclude_cancelled History.Missing Sample.tape
    = (Throws TypeError, [GenCommand.Intro], History.Missing, Sample.tape).
Proof.
  split; [right; right; reflexivity|].
  exact (runInteractiveMode_cancelled (H:=tape_source) GenSpec.env
           GenSpec.hex_exclude_cancelled History.Missing Sample.tape
           (or_intror (or_intror eq_refl))).
Defined.

(** With the two confirms cancelled the password is copied (here the
    clipboard refuses) and saved, as if both had been answered yes. *)
Example runInteractiveMode_confirms_cancelled :
  @GenCommand.runInteractiveMode tape_source GenSpec.env
    GenSpec.hex_confirms_cancelled History.Missing Sample.tape
  = (Returns (),
     [GenCommand.Intro; GenCommand.Spinner_start; GenCommand.Spinner_stop;
      GenCommand.Show_password (lit "0123012378901000");
      GenCommand.Show_strength GenCommand.red VeryWeak 15;
      GenCommand.Show_suggestions
        ["Add lowercase letters"; "Add uppercase letters";
         "Add special characters"; "Avoid repeating characters";
         "Avoid common sequences"]%string;
      GenCommand.Copy_failed; GenCommand.Saved;
      GenCommand.Outro],
     History.saveToHistory (lit "id-1") (lit "2025-01-01")
       (lit "0123012378901000")
       (PasswordOptions.mk 16 false false true false false false false
          None None)
       History.Missing,
     []).
Proof. vm_compute. reflexivity. Qed.

Example runInteractiveMode_hex :
  @GenCommand.runInteractiveMode tape_source GenSpec.env GenSpec.hex_answers
    History.Missing Sample.tape
  = (Returns (),
     [GenCommand.Intro; GenCommand.Spinner_start; GenCommand.Spinner_stop;
      GenCommand.Show_password (lit "0123012378901000");
      GenCommand.Show_strength GenCommand.red VeryWeak 15;
      GenCommand.Show_suggestions
        ["Add lowercase letters"; "Add uppercase letters";
         "Add special characters"; "Avoid repeating characters";
         "Avoid common sequences"]%string;
      GenCommand.Outro],
     History.Missing, []).
Proof. vm_compute. reflexivity. Qed.

End MoreRuns.

(** ** The prompts of the config command *)

Section ConfigPromptFacts.
Context `{Formatting}.
Import Builtins.

(** A successful save leaves the merged configuration. *)
Lemma saveConfig_to update disk old new :
  Config.loadConfig disk = Returns old →
  ConfigSpec.merged old update new →
  ∃ disk', Config.saveConfig update disk = (Returns (), disk')
           ∧ Config.loadConfig disk' = Returns new.
Proof.
  intros Hold Hm.
  destruct (saveConfig_cases update disk)
    as (old' & Hold' & _ & _ & [(new' & Hm' & Hs & Hload)|[Hno _]]).
  - assert (old' = old) as -> by congruence.
    rewrite (merged_functional _ _ _ _ Hm' Hm) in Hs, Hload. eauto.
  - assert (old' = old) as -> by congruence. destruct (Hno new Hm).
Qed.

Lemma loaded_bounds disk config :
  Config.loadConfig disk = Returns config →
  4 ≤ Config.defaultLength config ≤ 128
  ∧ 0 ≤ Config.historyLimit config ≤ 1000.
Proof.
  intros Hload. destruct (loadConfig_returns disk) as (c & Hc & ? & ?).
  assert (c = config) as -> by congruence. done.
Qed.

(** X22: the limit prompt accepts 0, but a limit of 0 is then read as no
    answer: with the first prompt answered yes and the limit prompt
    answered by a text it accepts, the limit saved is the number read
    from the text unless that number is zero or the text is empty, in
    which cases the limit stays as it was.  The save then cannot fail. *)
Theorem configureHistory_limit config disk :
  Config.loadConfig disk = Returns config →
  ConfigPrompts.validate_historyLimit config (lit "0") = None
  ∧ ∀ limitText,
      ConfigPrompts.validate_historyLimit config limitText = None →
      let limit := or_number (parseInt limitText) (Config.historyLimit config) in
      0 ≤ limit ≤ 1000
      ∧ (parseInt limitText = Integer 0 ∨ limitText = [] →
         limit = Config.historyLimit config)
      ∧ ∃ disk',
          ConfigPrompts.configureHistory config (Prompt.Answered true)
            (Prompt.Answered limitText) disk
          = (Returns (), disk')
          ∧ Config.loadConfig disk'
            = Returns (ConfigSpec.with_saveHistory true
                         (ConfigSpec.with_historyLimit limit config)).
Proof.
  intros Hload. destruct (loaded_bounds disk config Hload) as [_ Hlimit].
  split; [reflexivity|]. intros limitText Hvalid limit.
  assert (0 ≤ limit ≤ 1000) as Hin.
  { subst limit. unfold ConfigPrompts.validate_historyLimit in Hvalid.
    destruct limitText as [|c rest].
    - vm_compute (parseInt []). simpl. lia.
    - cbn [or_string] in Hvalid. unfold or_number.
      destruct (parseInt (c :: rest)) as [|n]; [discriminate|].
      case_bool_decide; [discriminate|]. case_bool_decide; lia. }
  split; [done|]. split.
  { subst limit. intros [->| ->]; [|by vm_compute (parseInt [])].
    unfold or_number. by rewrite bool_decide_eq_true_2. }
  unfold ConfigPrompts.configureHistory. cbn [Prompt.truthy Prompt.parseInt
    mbind outcome_bind Prompt.boolean_value]. fold limit.
  apply (saveConfig_to _ _ config); [done|].
  unfold ConfigSpec.merged. simpl. repeat split; (done || lia).
Qed.

(** X23: with the five prompts answered, the length by a text its prompt
    accepts, the text is saved as the default length (the old default
    for the empty text) together with the four class answers; the other
    settings stay, and the save cannot fail. *)
Theorem configureDefaults_saves config disk length up lo nu sy :
  Config.loadConfig disk = Returns config →
  ConfigPrompts.validate_defaultLength config length = None →
  let n := or_number (parseInt length) (Config.defaultLength config) in
  4 ≤ n ≤ 128
  ∧ (length = [] → n = Config.defaultLength config)
  ∧ (length ≠ [] → parseInt length = Integer n)
  ∧ ∃ disk',
      ConfigPrompts.configureDefaults config (Prompt.Answered length)
        (Prompt.Answered up) (Prompt.Answered lo) (Prompt.Answered nu)
        (Prompt.Answered sy) disk
      = (Returns (), disk')
      ∧ Config.loadConfig disk'
        = Returns (Config.mk n up lo nu sy (Config.autoCopy config)
                     (Config.saveHistory config) (Config.historyLimit config)).
Proof.
  intros Hload Hvalid n.
  destruct (loaded_bounds disk config Hload) as [Hdefault _].
  assert (4 ≤ n ≤ 128
          ∧ (length = [] → n = Config.defaultLength config)
          ∧ (length ≠ [] → parseInt length = Integer n)) as (Hin & He & Hne).
  { subst n. unfold ConfigPrompts.validate_defaultLength in Hvalid.
    destruct length as [|c rest].
    - vm_compute (parseInt []). simpl. repeat split; (done || lia).
    - cbn [or_string] in Hvalid. unfold or_number.
      destruct (parseInt (c :: rest)) as [|z]; [discriminate|].
      case_bool_decide; [discriminate|].
      rewrite bool_decide_eq_false_2 by lia. repeat split; (done || lia). }
  split; [done|]. split; [done|]. split; [done|].
  unfold ConfigPrompts.configureDefaults. cbn [Prompt.parseInt
    Prompt.boolean_value]. fold n.
  apply (saveConfig_to _ _ config); [done|].
  unfold ConfigSpec.merged. simpl. repeat split; (done || lia).
Qed.

(** An update that cannot be merged is refused and the file is left. *)
Lemma saveConfig_refuses update disk :
  (∀ old new, ¬ ConfigSpec.merged old update new) →
  Config.saveConfig update disk = (Throws ZodError, disk).
Proof.
  intros Hno.
  destruct (saveConfig_cases update disk)
    as (old & _ & _ & _ & [(new & Hm & _)|[_ Hthrows]]); [|done].
  destruct (Hno old new Hm).
Qed.

(** X27: the interactive settings do not survive a cancelled prompt, and
    then leave the file as it was.  A cancelled length or limit prompt
    is a TypeError when its text is parsed; a cancelled confirm puts a
    symbol where the schema wants a boolean, so that [saveConfig] throws
    the validation error.  A cancelled first prompt of the history
    settings still brings up the limit prompt. *)
Theorem configure_cancelled config disk :
  (∀ up lo nu sy,
     ConfigPrompts.configureDefaults config Prompt.Cancelled up lo nu sy disk
     = (Throws TypeError, disk))
  ∧ (∀ text up lo nu sy,
       up = Prompt.Cancelled ∨ lo = Prompt.Cancelled
       ∨ nu = Prompt.Cancelled ∨ sy = Prompt.Cancelled →
       ConfigPrompts.configureDefaults config (Prompt.Answered text)
         up lo nu sy disk
       = (Throws ZodError, disk))
  ∧ ConfigPrompts.configureBehavior config Prompt.Cancelled disk
    = (Throws ZodError, disk)
  ∧ (∀ saveHistory,
       Prompt.truthy saveHistory = true →
       ConfigPrompts.configureHistory config saveHistory Prompt.Cancelled disk
       = (Throws TypeError, disk))
  ∧ (∀ text,
       ConfigPrompts.configureHistory config Prompt.Cancelled
         (Prompt.Answered text) disk
       = (Throws ZodError, disk)).
Proof.
  split; [done|]. split.
  { intros text up lo nu sy Hcancelled.
    unfold ConfigPrompts.configureDefaults. cbn [Prompt.parseInt].
    apply saveConfig_refuses. intros old new (_ & Hup & Hlo & Hnu & Hsy & _).
    simpl in Hup, Hlo, Hnu, Hsy.
    destruct Hcancelled as [->|[->|[->| ->]]]; done. }
  split.
  { unfold ConfigPrompts.configureBehavior. apply saveConfig_refuses.
    intros old new (_ & _ & _ & _ & _ & Hcopy & _). done. }
  split.
  { intros saveHistory Htruthy. unfold ConfigPrompts.configureHistory.
    by rewrite Htruthy. }
  intros text. unfold ConfigPrompts.configureHistory.
  cbn [Prompt.truthy Prompt.parseInt mbind outcome_bind].
  apply saveConfig_refuses.
  intros old new (_ & _ & _ & _ & _ & _ & Hsave & _). done.
Qed.

End ConfigPromptFacts.

(** ** The history command *)

Section HistoryCommandFacts.
Context `{Formatting}.
Import Builtins.

Lemma slice_from_start {A} (a : list A) (l : Z) :
  slice a 0 l
  = take (Z.to_nat (if bool_decide (l < 0)
                    then Z.max (Z.of_nat (List.length a) + l) 0
                    else Z.min l (Z.of_nat (List.length a)))) a.
Proof.
  unfold slice. rewrite (bool_decide_eq_false_2 (0 < 0)) by lia.
  replace (Z.to_nat (0 `min` Z.of_nat (length a))) with 0%nat by lia.
  rewrite drop_0. f_equal. lia.
Qed.

Lemma slice_to_take {A} (a : list A) limit :
  HistoryCommand.slice_to a limit
  = take (HistoryCommandSpec.kept limit (length a)) a.
Proof.
  unfold HistoryCommand.slice_to, HistoryCommandSpec.kept.
  destruct limit as [|l]; rewrite slice_from_start.
  - rewrite bool_decide_eq_false_2 by lia. f_equal. lia.
  - case_bool_decide.
    + f_equal. lia.
    + destruct (decide (l ≤ Z.of_nat (length a))).
      * f_equal. lia.
      * rewrite !take_ge by lia. done.
Qed.

(** X24: with an empty history the listing only says so.  Otherwise, between
    its header and its footer, it has one row for each of the entries the
    limit keeps, in the order of the history (the newest first), numbered
    from 1, and the password of a row is the masked password of its
    entry; a limit that is no number keeps no entry, a negative limit
    drops entries from the end. *)
Lemma kept_le limit n : (HistoryCommandSpec.kept limit n ≤ n)%nat.
Proof.
  unfold HistoryCommandSpec.kept. destruct limit as [|l]; [lia|].
  case_bool_decide; lia.
Qed.

Theorem listHistory_rows limit disk :
  let history := History.loadHistory disk in
  (history = [] → HistoryCommand.listHistory limit disk
                  = [HistoryCommand.No_history])
  ∧ (history ≠ [] →
     ∃ rows,
       HistoryCommand.listHistory limit disk
       = [HistoryCommand.Header
            (HistoryCommand.min_number limit (Z.of_nat (length history)))
            (Z.of_nat (length history))]
         ++ rows ++ [HistoryCommand.Footer]
       ∧ length rows = HistoryCommandSpec.kept limit (length history)
       ∧ ∀ i : nat, (i < length rows)%nat →
           ∃ entry,
             history !! i = Some entry
             ∧ rows !! i
               = Some (HistoryCommand.Row (Z.of_nat i + 1)
                         (toLocaleString (History.createdAt entry))
                         (History.maskPassword (History.password entry))
                         (HistoryCommand.formatOptions
                            (History.options entry)))).
Proof.
  intros history. unfold HistoryCommand.listHistory. fold history. split.
  - intros ->. done.
  - intros Hne. rewrite bool_decide_eq_false_2
      by (destruct history; [done|simpl; lia]).
    eexists. split; [reflexivity|].
    rewrite length_imap, slice_to_take, length_take.
    pose proof (kept_le limit (length history)). split; [lia|].
    intros i Hi. rewrite list_lookup_imap, lookup_take_lt by lia.
    destruct (lookup_lt_is_Some_2 history i) as [entry Hentry]; [lia|].
    exists entry. by rewrite Hentry.
Qed.

(** X25: the identifiers being distinct, choosing the option offered for an
    entry copies the password of that entry, in full: what the prompt
    shows is the mask, what reaches the clipboard is the password. *)
Theorem copyFromHistory_selected history i c :
  NoDup (History.id <$> history) →
  HistoryCommand.copy_choices history !! i = Some c →
  ∃ entry,
    history !! i = Some entry
    ∧ (i < 10)%nat
    ∧ HistoryCommand.value c = History.id entry
    ∧ HistoryCommand.copyFromHistory history
        (Some (HistoryCommand.value c)) true
      = HistoryCommand.Written (History.password entry).
Proof.
  intros Hids Hchoice. unfold HistoryCommand.copy_choices in Hchoice.
  rewrite list_lookup_fmap, slice_from_start in Hchoice.
  rewrite bool_decide_eq_false_2 in Hchoice by lia.
  apply fmap_Some in Hchoice as (entry & Hentry & ->).
  apply lookup_take_Some in Hentry as [Hentry Hi].
  exists entry. split; [done|]. split; [lia|]. split; [done|].
  unfold HistoryCommand.copyFromHistory. simpl.
  destruct (list_find (λ e, History.id e = History.id entry) history)
    as [[j found]|] eqn:Hfind.
  - apply list_find_Some in Hfind as (Hj & Hsame & _).
    assert (j = i) as ->.
    { eapply (NoDup_lookup _ _ _ _ Hids);
        rewrite list_lookup_fmap; [by rewrite Hj; simpl; rewrite Hsame
                                  |by rewrite Hentry]. }
    by assert (found = entry) as -> by congruence.
  - apply list_find_None in Hfind. rewrite Forall_forall in Hfind.
    destruct (Hfind entry); [by eapply list_elem_of_lookup_2|done].
Qed.

End HistoryCommandFacts.

(** ** The prompts and the history command on sample inputs *)

Section PromptRuns.

Lemma configureHistory_limit_witness :
  Config.loadConfig Config.Missing = Returns ConfigSpec.defaults
  ∧ @ConfigPrompts.validate_historyLimit plain_formatting
      ConfigSpec.defaults (lit "0") = None
  ∧ ∀ limitText,
      @ConfigPrompts.validate_historyLimit plain_formatting
        ConfigSpec.defaults limitText = None →
      let limit :=
        Builtins.or_number (Builtins.parseInt limitText)
          (Config.historyLimit ConfigSpec.defaults) in
      0 ≤ limit ≤ 1000
      ∧ (Builtins.parseInt limitText = Builtins.Integer 0 ∨ limitText = [] →
         limit = Config.historyLimit ConfigSpec.defaults)
      ∧ ∃ disk',
          ConfigPrompts.configureHistory ConfigSpec.defaults
            (Prompt.Answered true) (Prompt.Answered limitText) Config.Missing
          = (Returns (), disk')
          ∧ Config.loadConfig disk'
            = Returns (ConfigSpec.with_saveHistory true
                         (ConfigSpec.with_historyLimit limit
                            ConfigSpec.defaults)).
Proof.
  split; [reflexivity|].
  exact (configureHistory_limit (H:=plain_formatting)
           ConfigSpec.defaults Config.Missing eq_refl).
Defined.

Lemma configureDefaults_saves_witness :
  Config.loadConfig Config.Missing = Returns ConfigSpec.defaults
  ∧ @ConfigPrompts.validate_defaultLength plain_formatting
      ConfigSpec.defaults (lit "20") = None
  ∧ 4 ≤ 20 ≤ 128
  ∧ (lit "20" = [] → 20 = Config.defaultLength ConfigSpec.defaults)
  ∧ (lit "20" ≠ [] → Builtins.parseInt (lit "20") = Builtins.Integer 20)
  ∧ ∃ disk',
      ConfigPrompts.configureDefaults ConfigSpec.defaults
        (Prompt.Answered (lit "20")) (Prompt.Answered true)
        (Prompt.Answered false) (Prompt.Answered true)
        (Prompt.Answered false) Config.Missing
      = (Returns (), disk')
      ∧ Config.loadConfig disk'
        = Returns (Config.mk 20 true false true false true false 100).
Proof.
  split; [reflexivity|]. split; [reflexivity|].
  exact (configureDefaults_saves (H:=plain_formatting)
           ConfigSpec.defaults Config.Missing (lit "20")
           true false true false eq_refl eq_refl).
Defined.

Lemma three_entries_distinct :
  NoDup (History.id <$> HistoryCommandSpec.three_entries).
Proof. apply (bool_decide_unpack _). vm_compute. exact I. Qed.

Lemma copyFromHistory_selected_witness :
  NoDup (History.id <$> HistoryCommandSpec.three_entries)
  ∧ @HistoryCommand.copy_choices plain_formatting
      HistoryCommandSpec.three_entries !! 1%nat
    = Some (HistoryCommand.mkChoice (lit "id-2")
              (lit "ab" ++ JS.repeat History.bullet 8 ++ lit "jk (2025-02-01)")
              (lit "L:12 A-Z a-z 0-9 !@#"))
  ∧ ∃ entry,
      HistoryCommandSpec.three_entries !! 1%nat = Some entry
      ∧ (1 < 10)%nat
      ∧ lit "id-2" = History.id entry
      ∧ HistoryCommand.copyFromHistory HistoryCommandSpec.three_entries
          (Some (lit "id-2")) true
        = HistoryCommand.Written (History.password entry).
Proof.
  split; [exact three_entries_distinct|]. split; [reflexivity|].
  exact (copyFromHistory_selected (H:=plain_formatting)
           HistoryCommandSpec.three_entries 1%nat _
           three_entries_distinct eq_refl).
Defined.

End PromptRuns.

(** ** The generate command with a clipboard that refuses the write *)

Section ClipboardRuns.
Import PasswordGenerator.


End ClipboardRuns.
